(** * scripts/prod-check.js: the production readiness check

    A shallow embedding of the script and the properties of its
    environment resolution, its probes and its verdict.

    Modelling choices.
    - A JavaScript string is the list of its UTF-16 code units ([jstr]).
    - [process.env] is a finite map from strings to strings, threaded
      through the synchronous code as explicit state. A name that is not
      a variable is looked up in [Object.prototype], as the runtime does.
      The store holds C strings: it keeps text without NUL as written,
      and a run whose inputs are such text assigns nothing else
      ([env_text], [text_outputs]); the statements about assigned values
      are made for such text.
    - A [try]/[catch] is a combinator on computations that either
      complete normally or throw; an [async] function is modelled by the
      way its promise settles.
    - Everything the script obtains from outside (child processes, the
      file system, the vendor SDKs, the clock, library functions such as
      [JSON.parse]) is a field of the record [Host].
    - Console output is not modelled; the values it prints are kept in
      the record returned by [main]. *)

From Stdlib Require Import Ascii String QArith Qround.
From stdpp Require Import base option list gmap strings pretty.

Local Open Scope Z_scope.

(** ** Strings *)

Abbreviation jstr := (list N).

Definition lit (s : string) : jstr :=
  (fun a => N_of_ascii a) <$> list_ascii_of_string s.
Arguments lit : simpl never.

Module Str.

(** WhiteSpace and LineTerminator code units of ECMAScript, the ones
    [String.prototype.trim] removes. *)
Definition isWhiteSpace (c : N) : bool :=
  ((9 <=? c) && (c <=? 13) || (c =? 32) || (c =? 160) || (c =? 5760)
   || (8192 <=? c) && (c <=? 8202) || (c =? 8232) || (c =? 8233)
   || (c =? 8239) || (c =? 8287) || (c =? 12288) || (c =? 65279))%N.

Fixpoint trimStart (s : jstr) : jstr :=
  match s with
  | c :: s' => if isWhiteSpace c then trimStart s' else s
  | [] => []
  end.

Definition trimEnd (s : jstr) : jstr := reverse (trimStart (reverse s)).

Definition trim (s : jstr) : jstr := trimEnd (trimStart s).

(** [s.split(sep)] for a separator of one code unit. *)
Fixpoint split (sep : N) (s : jstr) : list jstr :=
  match s with
  | [] => [[]]
  | c :: s' =>
      if (c =? sep)%N then [] :: split sep s'
      else match split sep s' with
           | w :: ws => (c :: w) :: ws
           | [] => [[c]]
           end
  end.

(** [parts.join(sep)] *)
Fixpoint join (sep : jstr) (parts : list jstr) : jstr :=
  match parts with
  | [] => []
  | [p] => p
  | p :: ps => p ++ sep ++ join sep ps
  end.

Fixpoint startsWith (p s : jstr) : bool :=
  match p, s with
  | [], _ => true
  | a :: p', b :: s' => (a =? b)%N && startsWith p' s'
  | _ :: _, [] => false
  end.

Fixpoint includes (sub s : jstr) : bool :=
  startsWith sub s ||
  match s with
  | [] => false
  | _ :: s' => includes sub s'
  end.

Definition isQuote (c : N) : bool := ((c =? 34) || (c =? 39))%N.

Definition dropLeadingQuote (s : jstr) : jstr :=
  match s with
  | c :: s' => if isQuote c then s' else s
  | [] => []
  end.

Definition dropTrailingQuote (s : jstr) : jstr :=
  reverse (dropLeadingQuote (reverse s)).

(** [s.replace(/^["']|["']$/g, '')]: the first alternative can match
    only at index 0, the second only at the last index, and the second
    match starts after the first one ends. *)
Definition replaceEdgeQuotes (s : jstr) : jstr :=
  dropTrailingQuote (dropLeadingQuote s).

(** Truthiness of a string. *)
Definition nonEmpty (s : jstr) : bool :=
  match s with [] => false | _ :: _ => true end.

End Str.

(** ** Completions and the state of [process.env] *)

(** What a [catch] receives. The values thrown at the script are objects
    (the errors of the runtime, of child_process, fs and the vendor
    SDKs), so reading [e.message] and [String(e)] does not throw. *)
Record JsError := {
  message : option jstr;   (* [e.message], when it is a string *)
  toString : jstr;         (* [String(e)] *)
}.

Inductive completion (A : Type) : Type :=
| Normal (a : A)
| Throw (e : JsError).
Arguments Normal {A} a.
Arguments Throw {A} e.

Abbreviation Env := (gmap jstr jstr).

(** Truthiness of a variable of the store: defined and not the empty
    string. *)
Definition truthy (v : option jstr) : bool :=
  match v with
  | Some s => Str.nonEmpty s
  | None => false
  end.

(** A synchronous computation reads and writes [process.env]; what it
    wrote stays written when it throws. *)
Definition M (A : Type) : Type := Env -> completion A * Env.

Definition ret {A} (a : A) : M A := fun env => (Normal a, env).

Definition bind {A B} (m : M A) (k : A -> M B) : M B :=
  fun env =>
    match m env with
    | (Normal a, env') => k a env'
    | (Throw e, env') => (Throw e, env')
    end.

Definition lift {A} (c : completion A) : M A := fun env => (c, env).

Definition try_catch {A} (body : M A) (handler : JsError -> M A) : M A :=
  fun env =>
    match body env with
    | (Normal a, env') => (Normal a, env')
    | (Throw e, env') => handler e env'
    end.

(** The names that [Object.prototype] defines. [process.env] inherits
    them: for such a name that is not a variable, [process.env[name]] is
    the inherited member (a function, or the prototype itself for
    [__proto__]), which is truthy. *)
Definition Object_prototype : list jstr :=
  [ lit "constructor"; lit "hasOwnProperty"; lit "isPrototypeOf";
    lit "propertyIsEnumerable"; lit "toLocaleString"; lit "toString";
    lit "valueOf"; lit "__proto__"; lit "__defineGetter__";
    lit "__defineSetter__"; lit "__lookupGetter__"; lit "__lookupSetter__" ].

(** What [process.env[key]] evaluates to. *)
Inductive property :=
| PUndefined
| PString (value : jstr)   (* the variable [key] *)
| PMember.                 (* a member inherited from [Object.prototype] *)

Definition property_of (env : Env) (key : jstr) : property :=
  match env !! key with
  | Some value => PString value
  | None => if bool_decide (key ∈ Object_prototype) then PMember else PUndefined
  end.

Definition is_truthy (p : property) : bool :=
  match p with
  | PUndefined => false
  | PString value => Str.nonEmpty value
  | PMember => true
  end.

(** Text that the store keeps as it is: [process.env] holds C strings,
    so a key or a value is cut at its first NUL. The outputs of commands
    and the content of files that the statements about stored values
    speak of are text without NUL. *)
Definition nul_free (s : jstr) : Prop := 0%N ∉ s.

(** The string the store keeps for [s]. *)
Fixpoint c_string (s : jstr) : jstr :=
  match s with
  | [] => []
  | c :: s' => if (c =? 0)%N then [] else c :: c_string s'
  end.

(** [process.env[key]] for a computed [key]: the variable, else the
    member that [process.env] inherits under this name, else
    [undefined]. The variable is found under [key] itself when [key] is
    text without NUL (see [nul_free]). *)
Definition getenv (key : jstr) : M property :=
  fun env => (Normal (property_of env key), env).

(** [process.env.NAME] for a name that the script spells out. None of
    them is a name of [Object.prototype], so the property is the
    variable or [undefined]. *)
Definition getvar (name : jstr) : M (option jstr) :=
  fun env => (Normal (env !! name), env).

(** What the store makes of an assignment: it keeps the C strings of
    the key and of the value. *)
Definition store_assign (key value : jstr) (env : Env) : Env :=
  <[c_string key := c_string value]> env.

(** [process.env[key] = value] for a key and a value that are text
    without NUL, which the store keeps as they are: the assignment is
    [store_assign] then ([setenv_text]), and these are the only
    assignments of a run on text ([run_keeps_text]). *)
Definition setenv (key value : jstr) : M unit :=
  fun env => (Normal tt, <[key := value]> env).

Definition current_env : M Env := fun env => (Normal env, env).

Declare Scope js_scope.
Delimit Scope js_scope with js.
Notation "'let!' x ':=' m 'in' k" := (bind m (fun x => k))
  (at level 10, x name, m at level 100, k at level 200) : js_scope.
Local Open Scope js_scope.

(** [for (const x of xs) body], with the loop's local variables as an
    accumulator. *)
Fixpoint for_of {A S} (xs : list A) (body : S -> A -> M S) (acc : S) : M S :=
  match xs with
  | [] => ret acc
  | x :: xs' => let! acc' := body acc x in for_of xs' body acc'
  end.

(** ** Promises, objects and numbers *)

(** A promise, by the way it settles. *)
Inductive Promise (A : Type) : Type :=
| Fulfilled (a : A)
| Rejected (e : JsError).
Arguments Fulfilled {A} a.
Arguments Rejected {A} e.

(** Calling an [async] function runs its body and returns a promise; a
    [throw] in the body rejects the promise. The probes are called one
    after the other and only read [process.env], so the order in which
    their awaits interleave is not visible to them. *)
Definition async {A} (body : M A) : M (Promise A) :=
  fun env =>
    match body env with
    | (Normal a, env') => (Normal (Fulfilled a), env')
    | (Throw e, env') => (Normal (Rejected e), env')
    end.

Definition await {A} (p : Promise A) : M A :=
  match p with
  | Fulfilled a => ret a
  | Rejected e => lift (Throw e)
  end.

(** [Promise.all]: fulfilled with all the values when every promise is
    fulfilled, rejected as soon as one is rejected (here: with the reason
    of the first rejected one in the array). *)
Fixpoint Promise_all {A} (ps : list (Promise A)) : Promise (list A) :=
  match ps with
  | [] => Fulfilled []
  | Fulfilled a :: ps' =>
      match Promise_all ps' with
      | Fulfilled vs => Fulfilled (a :: vs)
      | Rejected e => Rejected e
      end
  | Rejected e :: _ => Rejected e
  end.

Definition TypeError : JsError :=
  {| message := Some (lit "Cannot read properties of undefined");
     toString := lit "TypeError: Cannot read properties of undefined" |}.

(** Reading a property of an array element that may be [undefined]. *)
Definition member {A} (o : option A) : M A :=
  match o with
  | Some a => ret a
  | None => lift (Throw TypeError)
  end.

Definition Object_values {A} (o : list (jstr * A)) : list A := snd <$> o.

(** [Math.round]: the nearest integer, a tie going up. The numbers of the
    script are sums and quotients of millisecond counts; they are kept
    exact here, the rounding of IEEE doubles is not modelled. *)
Definition Math_round (x : Q) : Z := Qfloor (x + (1 # 2))%Q.

(** ** The required variables and their aliases *)

Definition OPENAI_API_KEY : jstr := lit "OPENAI_API_KEY".
Definition SUPABASE_URL : jstr := lit "SUPABASE_URL".
Definition SUPABASE_SERVICE_ROLE_KEY : jstr := lit "SUPABASE_SERVICE_ROLE_KEY".
Definition STRIPE_PUBLISHABLE_KEY : jstr := lit "STRIPE_PUBLISHABLE_KEY".
Definition STRIPE_SECRET_KEY : jstr := lit "STRIPE_SECRET_KEY".
Definition STRIPE_PRICE_RESPONSE : jstr := lit "STRIPE_PRICE_RESPONSE".
Definition STRIPE_WEBHOOK_SECRET : jstr := lit "STRIPE_WEBHOOK_SECRET".
Definition SENDGRID_API_KEY : jstr := lit "SENDGRID_API_KEY".
Definition SITE_URL : jstr := lit "SITE_URL".
Definition ENVIRONMENT : jstr := lit "ENVIRONMENT".
Definition STRIPE_PUBLIC_KEY : jstr := lit "STRIPE_PUBLIC_KEY".
Definition STRIPE_PRICE_ID : jstr := lit "STRIPE_PRICE_ID".

Definition REQUIRED_VARS : list jstr :=
  [ OPENAI_API_KEY; SUPABASE_URL; SUPABASE_SERVICE_ROLE_KEY;
    STRIPE_PUBLISHABLE_KEY; STRIPE_SECRET_KEY; STRIPE_PRICE_RESPONSE;
    STRIPE_WEBHOOK_SECRET; SENDGRID_API_KEY; SITE_URL; ENVIRONMENT ].

(** ** What the script gets from outside *)

(** The parsed output of [netlify status --json], as far as the script
    looks into it: [status.siteInfo?.id]. Output that parses to a value
    the script cannot look into (a [null], a site whose name is not a
    string) makes the script throw inside the same [try] as a failing
    [JSON.parse]; it is counted as a throw of the parse. *)
Record SiteInfo := { siteInfo_id : option jstr }.
Record NetlifyStatus := { siteInfo : option SiteInfo }.

(** The parsed output of [netlify sites:list --json]. *)
Record Site := { site_name : option jstr; site_id : jstr }.
Inductive SitesJson :=
| SitesArray (sites : list Site)
| NotAnArray.

(** The vendor responses, as far as the probes look into them. *)
Record ChatMessage := { content : option jstr }.
Record ChatChoice := { choice_message : option ChatMessage }.
Record ChatCompletion := { choices : option (list ChatChoice) }.

Record PostgrestError := { error_message : jstr }.
Record InsertResponse := { error : option PostgrestError }.

Record Product := { product_id : jstr }.
Inductive PriceProduct :=
| ProductRef (id : jstr)                 (* [typeof price.product === 'string'] *)
| ProductExpanded (p : option Product).  (* an object, or null *)
Record Price := { product : PriceProduct }.

Record ClientResponse := { statusCode : option Z }.

Record Response := { status : Z }.

Inductive Probe := OpenAI | Supabase | Stripe | SendGrid | SiteUrl.

Record Host := {
  (* child_process and fs *)
  execSync : jstr -> completion jstr;
  existsSync : jstr -> bool;
  readFileSync : jstr -> completion jstr;
  (* library functions *)
  JSON_parse_status : jstr -> completion NetlifyStatus;
  JSON_parse_sites : jstr -> completion SitesJson;
  toLowerCase : jstr -> jstr;
  (* the two readings of [nowMs()] a probe takes *)
  nowMs_start : Probe -> Z;
  nowMs_end : Probe -> Z;
  (* the vendor calls, given the configuration the probe passes them *)
  chat_completions_create : option jstr -> completion ChatCompletion;
  system_check_insert : option jstr -> option jstr -> completion InsertResponse;
  prices_retrieve : option jstr -> option jstr -> completion Price;
  products_retrieve : option jstr -> jstr -> completion (option Product);
  sgMail_client_request : option jstr -> completion (list ClientResponse);
  fetch : option jstr -> completion Response;
}.

(** ** Check results *)

(** The values the field [ok] of a result can hold: the SendGrid probe
    stores the value of an [&&], the others a boolean. *)
Inductive jsval :=
| JUndefined
| JNumber (n : Z)
| JBool (b : bool).

Definition ToBoolean (v : jsval) : bool :=
  match v with
  | JUndefined => false
  | JNumber n => negb (n =? 0)
  | JBool b => b
  end.

(** The decimal rendering of an integral number in a template literal. *)
Definition Number_toString (n : Z) : jstr := lit (pretty n).

Record CheckResult := { ok : jsval; ms : Z; detail : jstr }.

(** What [main] has computed when it calls [process.exit]. *)
Record Run := {
  envStatus : list (jstr * bool);
  report : list (jstr * CheckResult);
  avgTime : Z;
  missingKeys : list jstr;
  exitCode : Z;
}.

(** ** The environment resolver *)

Section Script.

Context (h : Host).

(** The filter of [loadEnvFromNetlify] on the listed sites. *)
Definition possibleSite (site : Site) : bool :=
  match site_name site with
  | Some name =>
      Str.includes (lit "audit") (toLowerCase h name)
      || Str.includes (lit "response") (toLowerCase h name)
  | None => false
  end.

(** The body of the outermost [catch (err)] of the linkage check:
    auto-link from the git remote, else by site name. [repoName] is
    computed by the source and never used; it is left out. *)
Definition autoLink : M bool :=
  try_catch
    (let! gitRemote := lift (execSync h (lit "git remote get-url origin")) in
     try_catch
       (let! _ := lift (execSync h (lit "netlify link --git")) in
        ret true)
       (fun linkErr =>
          let! sitesOutput := lift (execSync h (lit "netlify sites:list --json")) in
          let! sites := lift (JSON_parse_sites h sitesOutput) in
          match sites with
          | SitesArray sites =>
              let possibleSites := List.filter possibleSite sites in
              match possibleSites with
              | [site] =>
                  try_catch
                    (let! _ := lift (execSync h (lit "netlify link --id " ++ site_id site)) in
                     ret true)
                    (fun linkErr2 => ret false)
              | _ => ret false
              end
          | NotAnArray => ret false
          end))
    (fun linkAttemptErr => ret false).

Definition checkLinked : M bool :=
  try_catch
    (let! statusOutput := lift (execSync h (lit "netlify status --json")) in
     let! status := lift (JSON_parse_status h statusOutput) in
     ret (truthy (siteInfo status ≫= siteInfo_id)))
    (fun err => autoLink).

(** [value && !value.includes('Error') && !value.includes('not found')
    && value.length > 0] *)
Definition usableValue (value : jstr) : bool :=
  Str.nonEmpty value
  && negb (Str.includes (lit "Error") value)
  && negb (Str.includes (lit "not found") value)
  && (0 <? length value)%nat.

(** One iteration of the loop over [REQUIRED_VARS]; the accumulator is
    [loadedCount]. *)
Definition fetchVar (loadedCount : Z) (varName : jstr) : M Z :=
  let! current := getenv varName in
  if negb (is_truthy current) then
    try_catch
      (let! valueOutput := lift (execSync h (lit "netlify env:get " ++ varName)) in
       let value := Str.trim valueOutput in
       if usableValue value then
         let! _ := setenv varName value in
         ret (loadedCount + 1)
       else ret loadedCount)
      (fun err => ret loadedCount)
  else ret loadedCount.

Definition loadEnvFromNetlify : M bool :=
  try_catch
    (let! isLinked := checkLinked in
     if negb isLinked then ret false
     else
       let! loadedCount := for_of REQUIRED_VARS fetchVar 0 in
       ret (0 <? loadedCount))
    (fun error => ret false).

(** One iteration of the loop over the lines of [.env]. *)
Definition loadLine (_ : unit) (line : jstr) : M unit :=
  let trimmed := Str.trim line in
  if Str.nonEmpty trimmed
     && negb (Str.startsWith (lit "#") trimmed)
     && Str.includes (lit "=") trimmed
  then
    match Str.split 61 trimmed with
    | key :: valueParts =>
        let value := Str.replaceEdgeQuotes (Str.join (lit "=") valueParts) in
        let! current := getenv key in
        if Str.nonEmpty key && Str.nonEmpty value && negb (is_truthy current)
        then setenv key value
        else ret tt
    | [] => ret tt
    end
  else ret tt.

Definition loadEnvFromFile : M unit :=
  if existsSync h (lit ".env") then
    let! envContent := lift (readFileSync h (lit ".env")) in
    let lines := Str.split 10 envContent in
    for_of lines loadLine tt
  else ret tt.

(** [process.env[key] = process.env[from]]: an undefined right-hand
    side would be stored as the string "undefined". *)
Definition copyenv (from key : jstr) : M unit :=
  let! v := getvar from in
  setenv key (default (lit "undefined") v).

Definition mapEnvVars : M unit :=
  let! public_key := getvar STRIPE_PUBLIC_KEY in
  let! publishable_key := getvar STRIPE_PUBLISHABLE_KEY in
  let! _ :=
    if truthy public_key && negb (truthy publishable_key)
    then copyenv STRIPE_PUBLIC_KEY STRIPE_PUBLISHABLE_KEY
    else ret tt in
  let! price_id := getvar STRIPE_PRICE_ID in
  let! price_response := getvar STRIPE_PRICE_RESPONSE in
  if truthy price_id && negb (truthy price_response)
  then copyenv STRIPE_PRICE_ID STRIPE_PRICE_RESPONSE
  else ret tt.

(** [Boolean(process.env[key] && String(process.env[key]).trim())], for
    the keys of [REQUIRED_VARS]; [Object.prototype] defines none of them
    ([required_not_inherited]), so the property is the variable or
    [undefined]. *)
Definition present (env : Env) (key : jstr) : bool :=
  truthy (env !! key)
  && match env !! key with
     | Some v => Str.nonEmpty (Str.trim v)
     | None => false
     end.

(** The object [results], as its entries in insertion order. *)
Definition logEnvStatus : M (list (jstr * bool)) :=
  for_of REQUIRED_VARS
    (fun results key =>
       let! env := current_env in
       ret (results ++ [(key, present env key)]))
    [].

(** ** The probes *)

(** [e.message || String(e)] *)
Definition errorDetail (e : JsError) : jstr :=
  match message e with
  | Some m => if Str.nonEmpty m then m else toString e
  | None => toString e
  end.

Definition checkOpenAI : M CheckResult :=
  let start := nowMs_start h OpenAI in
  try_catch
    (let! apiKey := getvar OPENAI_API_KEY in
     let! res := lift (chat_completions_create h apiKey) in
     (* [res.choices?.[0]?.message?.content || ''] *)
     let text :=
       default [] (cs ← choices res; c ← head cs; m ← choice_message c; content m) in
     let ok := Str.nonEmpty text && (0 <? length text)%nat in
     ret {| ok := JBool ok; ms := nowMs_end h OpenAI - start;
            detail := if ok then lit "OK" else lit "Empty response" |})
    (fun e =>
       ret {| ok := JBool false; ms := nowMs_end h OpenAI - start;
              detail := errorDetail e |}).

Definition checkSupabase : M CheckResult :=
  let start := nowMs_start h Supabase in
  try_catch
    (let! url := getvar SUPABASE_URL in
     let! key := getvar SUPABASE_SERVICE_ROLE_KEY in
     let! res := lift (system_check_insert h url key) in
     match error res with
     | Some err =>
         ret {| ok := JBool false; ms := nowMs_end h Supabase - start;
                detail := lit "Insert failed: " ++ error_message err |}
     | None =>
         ret {| ok := JBool true; ms := nowMs_end h Supabase - start;
                detail := lit "Inserted dummy record" |}
     end)
    (fun e =>
       ret {| ok := JBool false; ms := nowMs_end h Supabase - start;
              detail := errorDetail e |}).

Definition checkStripe : M CheckResult :=
  let start := nowMs_start h Stripe in
  try_catch
    (let! secret := getvar STRIPE_SECRET_KEY in
     let! priceId := getvar STRIPE_PRICE_RESPONSE in
     let! price := lift (prices_retrieve h secret priceId) in
     let! productObj :=
       match product price with
       | ProductRef id => lift (products_retrieve h secret id)
       | ProductExpanded p => ret p
       end in
     let ok :=
       match productObj with
       | Some p => Str.nonEmpty (product_id p)
       | None => false
       end in
     ret {| ok := JBool ok; ms := nowMs_end h Stripe - start;
            detail :=
              match productObj with
              | Some p =>
                  if ok then lit "Product " ++ product_id p
                  else lit "No product returned"
              | None => lit "No product returned"
              end |})
    (fun e =>
       ret {| ok := JBool false; ms := nowMs_end h Stripe - start;
              detail := errorDetail e |}).

Definition checkSendGrid : M CheckResult :=
  let start := nowMs_start h SendGrid in
  try_catch
    (let! apiKey := getvar SENDGRID_API_KEY in
     let! result := lift (sgMail_client_request h apiKey) in
     let response := head result in
     let code := r ← response; statusCode r in
     (* [response?.statusCode && response.statusCode < 400] *)
     let ok :=
       match code with
       | Some n => if ToBoolean (JNumber n) then JBool (n <? 400) else JNumber n
       | None => JUndefined
       end in
     ret {| ok := ok; ms := nowMs_end h SendGrid - start;
            detail :=
              if ToBoolean ok then lit "Email API reachable"
              else lit "Status " ++
                   match code with
                   | Some n => Number_toString n
                   | None => lit "undefined"
                   end |})
    (fun e =>
       ret {| ok := JBool false; ms := nowMs_end h SendGrid - start;
              detail := errorDetail e |}).

Definition checkSiteUrl : M CheckResult :=
  let start := nowMs_start h SiteUrl in
  try_catch
    (let! url := getvar SITE_URL in
     let! res := lift (fetch h url) in
     let ok := status res =? 200 in
     ret {| ok := JBool ok; ms := nowMs_end h SiteUrl - start;
            detail := lit "HTTP " ++ Number_toString (status res) |})
    (fun e =>
       ret {| ok := JBool false; ms := nowMs_end h SiteUrl - start;
              detail := errorDetail e |}).

(** ** The runner and the verdict *)

Definition main : M Run :=
  let! netlifyLoaded := loadEnvFromNetlify in
  let! _ := if netlifyLoaded then ret tt else loadEnvFromFile in
  let! _ := mapEnvVars in
  let! envStatus := logEnvStatus in
  let! p0 := async checkOpenAI in
  let! p1 := async checkSupabase in
  let! p2 := async checkStripe in
  let! p3 := async checkSendGrid in
  let! p4 := async checkSiteUrl in
  let! checks := await (Promise_all [p0; p1; p2; p3; p4]) in
  (* [printReport] reads the fields of each entry of [report] *)
  let! openai := member (checks !! 0%nat) in
  let! supabase := member (checks !! 1%nat) in
  let! stripe := member (checks !! 2%nat) in
  let! sendgrid := member (checks !! 3%nat) in
  let! site := member (checks !! 4%nat) in
  let report : list (jstr * CheckResult) :=
    [ (lit "openai", openai); (lit "supabase", supabase);
      (lit "stripe", stripe); (lit "sendgrid", sendgrid);
      (lit "site", site) ] in
  let responseTimes := ms <$> Object_values report in
  let total := foldl Z.add 0 responseTimes in
  let avgTime :=
    Math_round (inject_Z total / inject_Z (Z.of_nat (length responseTimes)))%Q in
  let missingKeys :=
    fst <$> List.filter (fun entry => negb (snd entry)) envStatus in
  let allIntegrationsOk :=
    forallb (fun r => ToBoolean (ok r)) (Object_values report) in
  let allEnvOk := (length missingKeys =? 0)%nat in
  ret {| envStatus := envStatus; report := report; avgTime := avgTime;
         missingKeys := missingKeys;
         exitCode := if allEnvOk && allIntegrationsOk then 0 else 1 |}.

(** [main().catch(e => { ...; process.exit(1) })]: the exit code of the
    process started with the environment [env]. *)
Definition prod_check (env : Env) : Z :=
  match main env with
  | (Normal run, _) => exitCode run
  | (Throw _, _) => 1
  end.

End Script.

(** ** Names used by the statements *)

(** The first half of [main]: the two sources, then the aliases. *)
Definition resolveEnv (h : Host) : M unit :=
  let! netlifyLoaded := loadEnvFromNetlify h in
  let! _ := if netlifyLoaded then ret tt else loadEnvFromFile h in
  mapEnvVars.

(** Whether [process.env[key]] is truthy. *)
Definition is_set (env : Env) (key : jstr) : bool :=
  is_truthy (property_of env key).

(** The commands of the host print text without NUL. *)
Definition text_commands (h : Host) : Prop :=
  forall cmd out, execSync h cmd = Normal out -> nul_free out.

(** The files of the host hold text without NUL. *)
Definition text_files (h : Host) : Prop :=
  forall path content, readFileSync h path = Normal content -> nul_free content.

Definition text_outputs (h : Host) : Prop := text_commands h /\ text_files h.

(** The names and the values of the variables are text without NUL, as
    in every environment a process is started with. *)
Definition env_text (env : Env) : Prop :=
  forall key value, env !! key = Some value -> nul_free key /\ nul_free value.

(** The environment after one line of [.env]. *)
Definition lineEnv (line : jstr) (env : Env) : Env :=
  snd (loadLine tt line env).

(** The environment after the mapping of one alias. *)
Definition aliasEnv (alias canonical : jstr) (env : Env) : Env :=
  if truthy (env !! alias) && negb (truthy (env !! canonical))
  then <[canonical := default (lit "undefined") (env !! alias)]> env
  else env.

(** [s] holds nothing but white space. *)
Definition blank (s : jstr) : Prop :=
  Forall (fun c => Str.isWhiteSpace c = true) s.

(** [env'] comes from [env] by assignments to keys that were not set
    (undefined or empty) of values that are not empty. *)
Definition extends (env env' : Env) : Prop :=
  forall k,
    env' !! k = env !! k
    \/ (truthy (env !! k) = false /\ truthy (env' !! k) = true).

Definition probes (h : Host) : list (M CheckResult) :=
  [ checkOpenAI h; checkSupabase h; checkStripe h; checkSendGrid h;
    checkSiteUrl h ].

(** ** Sample hosts *)

Definition ENOENT : JsError :=
  {| message := Some (lit "spawnSync /bin/sh ENOENT");
     toString := lit "Error: spawnSync /bin/sh ENOENT" |}.

Definition EACCES : JsError :=
  {| message := Some (lit "EACCES: permission denied, open '.env'");
     toString := lit "Error: EACCES: permission denied, open '.env'" |}.

Definition ECONNREFUSED : JsError :=
  {| message := Some (lit "connect ECONNREFUSED");
     toString := lit "Error: connect ECONNREFUSED" |}.

(** No CLI, no [.env], no network. *)
Definition offline : Host :=
  {| execSync := fun _ => Throw ENOENT;
     existsSync := fun _ => false;
     readFileSync := fun _ => Throw ENOENT;
     JSON_parse_status := fun _ => Throw ENOENT;
     JSON_parse_sites := fun _ => Throw ENOENT;
     toLowerCase := fun s => s;
     nowMs_start := fun _ => 0;
     nowMs_end := fun _ => 1;
     chat_completions_create := fun _ => Throw ECONNREFUSED;
     system_check_insert := fun _ _ => Throw ECONNREFUSED;
     prices_retrieve := fun _ _ => Throw ECONNREFUSED;
     products_retrieve := fun _ _ => Throw ECONNREFUSED;
     sgMail_client_request := fun _ => Throw ECONNREFUSED;
     fetch := fun _ => Throw ECONNREFUSED |}.

(** The host [h] with a file [.env], given by the outcome of reading it. *)
Definition with_file (h : Host) (read : completion jstr) : Host :=
  {| execSync := execSync h;
     existsSync := fun _ => true;
     readFileSync := fun _ => read;
     JSON_parse_status := JSON_parse_status h;
     JSON_parse_sites := JSON_parse_sites h;
     toLowerCase := toLowerCase h;
     nowMs_start := nowMs_start h;
     nowMs_end := nowMs_end h;
     chat_completions_create := chat_completions_create h;
     system_check_insert := system_check_insert h;
     prices_retrieve := prices_retrieve h;
     products_retrieve := products_retrieve h;
     sgMail_client_request := sgMail_client_request h;
     fetch := fetch h |}.

(** A comment line, a blank line and a quoted value. *)
Definition sample_file : jstr :=
  lit "# settings" ++ [10%N] ++ [10%N]
  ++ lit "KEY=" ++ [34%N] ++ lit "quoted value" ++ [34%N].

(** No CLI; every service answers, the site with [site_status]; the
    probes take 10, 20, 30, 40 and 50 ms. *)
Definition responding (site_status : Z) : Host :=
  {| execSync := fun _ => Throw ENOENT;
     existsSync := fun _ => false;
     readFileSync := fun _ => Throw ENOENT;
     JSON_parse_status := fun _ => Throw ENOENT;
     JSON_parse_sites := fun _ => Throw ENOENT;
     toLowerCase := fun s => s;
     nowMs_start := fun _ => 1000;
     nowMs_end := fun p =>
       match p with
       | OpenAI => 1010 | Supabase => 1020 | Stripe => 1030
       | SendGrid => 1040 | SiteUrl => 1050
       end;
     chat_completions_create := fun _ =>
       Normal {| choices :=
         Some [ {| choice_message := Some {| content := Some (lit "Hello.") |} |} ] |};
     system_check_insert := fun _ _ => Normal {| error := None |};
     prices_retrieve := fun _ _ =>
       Normal {| product := ProductRef (lit "prod_1") |};
     products_retrieve := fun _ id => Normal (Some {| product_id := id |});
     sgMail_client_request := fun _ => Normal [ {| statusCode := Some 200 |} ];
     fetch := fun _ => Normal {| status := site_status |} |}.

(** Every required variable set to [value]. *)
Definition all_set (value : jstr) : Env :=
  list_to_map ((fun key => (key, value)) <$> REQUIRED_VARS).

(** A linked site whose CLI knows [SITE_URL], next to a [.env] that
    gives another value for it. *)
Definition linked : Host :=
  {| execSync := fun cmd =>
       if bool_decide (cmd = lit "netlify status --json") then Normal (lit "{}")
       else if bool_decide (cmd = lit "netlify env:get SITE_URL")
            then Normal (lit "https://auditresponse.ai" ++ [10%N])
            else Throw ENOENT;
     existsSync := fun _ => true;
     readFileSync := fun _ => Normal (lit "SITE_URL=http://localhost:8888");
     JSON_parse_status := fun _ =>
       Normal {| siteInfo := Some {| siteInfo_id := Some (lit "site-1") |} |};
     JSON_parse_sites := fun _ => Throw ENOENT;
     toLowerCase := fun s => s;
     nowMs_start := fun _ => 0;
     nowMs_end := fun _ => 1;
     chat_completions_create := fun _ => Throw ECONNREFUSED;
     system_check_insert := fun _ _ => Throw ECONNREFUSED;
     prices_retrieve := fun _ _ => Throw ECONNREFUSED;
     products_retrieve := fun _ _ => Throw ECONNREFUSED;
     sgMail_client_request := fun _ => Throw ECONNREFUSED;
     fetch := fun _ => Throw ECONNREFUSED |}.

(** [env'] differs from [env] only at keys that satisfy [P], and such a
    key is set in [env']. *)
Definition touches (P : jstr -> Prop) (env env' : Env) : Prop :=
  forall k, env' !! k = env !! k \/ (P k /\ truthy (env' !! k) = true).

(** The keys that a line of [.env] can define: not empty, without [=],
    and not starting with white space or [#]. *)
Definition file_key (key : jstr) : Prop :=
  key <> []
  /\ (61%N ∉ key)
  /\ forall c t, key = c :: t -> Str.isWhiteSpace c = false /\ c <> 35%N.

(** ** The clock *)

(** [nowMs]: [Number(hr / 1000000n)] for the reading [hr] of
    [process.hrtime.bigint()], in nanoseconds. The division of BigInts
    rounds towards zero. *)
Definition nowMs (hr : Z) : Z := hr ÷ 1000000.

(** ** More sample hosts *)

(** The host [h] with other readings of the clock. *)
Definition with_clock (h : Host) (start finish : Probe -> Z) : Host :=
  {| execSync := execSync h;
     existsSync := existsSync h;
     readFileSync := readFileSync h;
     JSON_parse_status := JSON_parse_status h;
     JSON_parse_sites := JSON_parse_sites h;
     toLowerCase := toLowerCase h;
     nowMs_start := start;
     nowMs_end := finish;
     chat_completions_create := chat_completions_create h;
     system_check_insert := system_check_insert h;
     prices_retrieve := prices_retrieve h;
     products_retrieve := products_retrieve h;
     sgMail_client_request := sgMail_client_request h;
     fetch := fetch h |}.

(** No network and no [.env]; a CLI given by what its commands print
    and by how the two JSON outputs parse. *)
Definition with_cli (exec : jstr -> completion jstr)
    (parse_status : completion NetlifyStatus)
    (parse_sites : completion SitesJson) : Host :=
  {| execSync := exec;
     existsSync := fun _ => false;
     readFileSync := fun _ => Throw ENOENT;
     JSON_parse_status := fun _ => parse_status;
     JSON_parse_sites := fun _ => parse_sites;
     toLowerCase := fun s => s;
     nowMs_start := fun _ => 0;
     nowMs_end := fun _ => 1;
     chat_completions_create := fun _ => Throw ECONNREFUSED;
     system_check_insert := fun _ _ => Throw ECONNREFUSED;
     prices_retrieve := fun _ _ => Throw ECONNREFUSED;
     products_retrieve := fun _ _ => Throw ECONNREFUSED;
     sgMail_client_request := fun _ => Throw ECONNREFUSED;
     fetch := fun _ => Throw ECONNREFUSED |}.

(** Every command prints [out]. *)
Definition prints (out : jstr) : jstr -> completion jstr :=
  fun _ => Normal out.

(** Only the commands that start with [prefix] work; they print [out]. *)
Definition prints_for (prefix out : jstr) : jstr -> completion jstr :=
  fun cmd => if Str.startsWith prefix cmd then Normal out else Throw ENOENT.

Definition linked_status : NetlifyStatus :=
  {| siteInfo := Some {| siteInfo_id := Some (lit "site-1") |} |}.

Definition unlinked_status : NetlifyStatus := {| siteInfo := None |}.

(** A CLI that answers every [env:get] with an error text. *)
Definition cli_without_values : Host :=
  with_cli (prints (lit "Error: Environment variable not found"))
    (Normal linked_status) (Throw ENOENT).

(** A project that is not linked: the status command works and reports
    no site, every other command would work. *)
Definition not_linked : Host :=
  with_cli (prints (lit "value")) (Normal unlinked_status) (Throw ENOENT).

(** The status command and [link --git] fail; the account has two sites
    whose names match the filter. *)
Definition two_candidates : Host :=
  with_cli
    (fun cmd =>
       if bool_decide (cmd = lit "git remote get-url origin")
          || bool_decide (cmd = lit "netlify sites:list --json")
          || Str.startsWith (lit "netlify link --id") cmd
          || Str.startsWith (lit "netlify env:get") cmd
       then Normal (lit "value") else Throw ENOENT)
    (Throw ENOENT)
    (Normal (SitesArray
       [ {| site_name := Some (lit "audit-staging"); site_id := lit "s1" |};
         {| site_name := Some (lit "auditresponse"); site_id := lit "s2" |};
         {| site_name := Some (lit "blog"); site_id := lit "s3" |} ])).

(** The status command and [link --git] fail; the account has one site
    whose name matches the filter, and linking it ends as [link]. *)
Definition one_candidate (link : completion jstr) : Host :=
  with_cli
    (fun cmd =>
       if bool_decide (cmd = lit "git remote get-url origin")
          || bool_decide (cmd = lit "netlify sites:list --json")
          || Str.startsWith (lit "netlify env:get") cmd
       then Normal (lit "value")
       else if bool_decide (cmd = lit "netlify link --id s2") then link
            else Throw ENOENT)
    (Throw ENOENT)
    (Normal (SitesArray
       [ {| site_name := Some (lit "auditresponse"); site_id := lit "s2" |};
         {| site_name := Some (lit "blog"); site_id := lit "s3" |} ])).

(** * Properties *)

(** ** Strings *)

Section StringFacts.

Implicit Types (s t : jstr) (c : N).

Lemma nonEmpty_true s : Str.nonEmpty s = true <-> s <> [].
Proof. destruct s; simpl; split; congruence. Qed.

Lemma nonEmpty_false s : Str.nonEmpty s = false <-> s = [].
Proof. destruct s; simpl; split; congruence. Qed.

Lemma trimStart_nil s : Str.trimStart s = [] <-> blank s.
Proof.
  unfold blank. induction s as [|c s IH]; simpl.
  - split; [constructor | reflexivity].
  - destruct (Str.isWhiteSpace c) eqn:E.
    + rewrite IH. split; [by constructor | by inversion 1].
    + split; [discriminate | inversion 1; congruence].
Qed.

Lemma trimStart_blank s : blank (Str.trimStart s) -> blank s.
Proof.
  unfold blank. induction s as [|c s IH]; simpl; [done|].
  destruct (Str.isWhiteSpace c) eqn:E; [|done].
  intros H. constructor; auto.
Qed.

Lemma blank_trimStart s : blank s -> blank (Str.trimStart s).
Proof. intros H. apply trimStart_nil in H. rewrite H. constructor. Qed.

Lemma blank_reverse s : blank (reverse s) <-> blank s.
Proof. unfold blank. by rewrite Forall_reverse. Qed.

Lemma trim_nil s : Str.trim s = [] <-> blank s.
Proof.
  unfold Str.trim, Str.trimEnd.
  rewrite <- (reverse_nil (A:=N)) at 1.
  split.
  - intros H. apply (inj reverse) in H. apply trimStart_nil in H.
    rewrite blank_reverse in H. by apply trimStart_blank.
  - intros H. f_equal. apply trimStart_nil. rewrite blank_reverse.
    by apply blank_trimStart.
Qed.

Lemma not_blank s :
  ~ blank s <-> exists c, c ∈ s /\ Str.isWhiteSpace c = false.
Proof.
  unfold blank. rewrite <- Exists_Forall_neg
    by (intros x; destruct (Str.isWhiteSpace x); [left | right]; congruence).
  rewrite List.Exists_exists. setoid_rewrite <- list_elem_of_In. split; intros (c & Hc & E); exists c.
  - split; [done|]. by destruct (Str.isWhiteSpace c).
  - split; [done|]. congruence.
Qed.

Lemma split_cons sep s : exists w ws, Str.split sep s = w :: ws.
Proof.
  destruct s as [|c s]; simpl; [eauto|].
  destruct (c =? sep)%N; [eauto|].
  destruct (Str.split sep s); eauto.
Qed.

Lemma split_absent sep s : sep ∉ s -> Str.split sep s = [s].
Proof.
  induction s as [|c s IH]; simpl; [done|].
  intros H. apply not_elem_of_cons in H as [Hc Hs].
  destruct (N.eqb_spec c sep); [congruence|]. by rewrite IH.
Qed.

(** Splitting cuts at every separator: the first part runs up to the
    first one. *)
Lemma split_first sep k rest :
  sep ∉ k -> Str.split sep (k ++ sep :: rest) = k :: Str.split sep rest.
Proof.
  induction k as [|c k IH]; simpl; intros H.
  - by rewrite N.eqb_refl.
  - apply not_elem_of_cons in H as [Hc Hk].
    destruct (N.eqb_spec c sep); [congruence|]. by rewrite IH.
Qed.

Lemma join_cons sep p q r :
  Str.join sep (p :: q :: r) = p ++ sep ++ Str.join sep (q :: r).
Proof. reflexivity. Qed.

Lemma join_split sep s : Str.join [sep] (Str.split sep s) = s.
Proof.
  induction s as [|c s IH]; simpl; [done|].
  destruct (split_cons sep s) as (w & ws & E). rewrite E in *.
  destruct (N.eqb_spec c sep) as [->|Hne].
  - by rewrite join_cons, IH.
  - destruct ws as [|w' ws].
    + simpl in *. by rewrite IH.
    + rewrite join_cons in *. by rewrite <- IH.
Qed.

Lemma first_occurrence c s :
  c ∈ s -> exists k rest, s = k ++ c :: rest /\ c ∉ k.
Proof.
  induction s as [|d s IH]; [by inversion 1|].
  intros H. destruct (decide (d = c)) as [->|Hne].
  - exists [], s. split; [done|]. apply not_elem_of_nil.
  - apply elem_of_cons in H as [->|H]; [done|].
    destruct (IH H) as (k & rest & -> & Hk).
    exists (d :: k), rest. split; [done|].
    apply not_elem_of_cons. split; [congruence | done].
Qed.

Lemma includes_one c s : Str.includes [c] s = true <-> c ∈ s.
Proof.
  induction s as [|d s IH]; simpl.
  - split; [discriminate | by inversion 1].
  - rewrite orb_true_iff, IH, andb_true_r, N.eqb_eq, elem_of_cons.
    intuition congruence.
Qed.

Lemma startsWith_one c s : Str.startsWith [c] s = true <-> exists t, s = c :: t.
Proof.
  destruct s as [|d s]; simpl.
  - split; [discriminate | by intros [? ?]].
  - rewrite andb_true_r, N.eqb_eq. split.
    + intros ->. by exists s.
    + by intros [t [= -> _]].
Qed.

(** A quote at each end is removed, one at each end. *)
Lemma replaceEdgeQuotes_quoted q1 q2 s :
  Str.isQuote q1 = true -> Str.isQuote q2 = true ->
  Str.replaceEdgeQuotes (q1 :: s ++ [q2]) = s.
Proof.
  intros H1 H2. unfold Str.replaceEdgeQuotes, Str.dropTrailingQuote.
  simpl. rewrite H1, reverse_app. simpl. rewrite H2. apply reverse_involutive.
Qed.

End StringFacts.

(** ** The state of [process.env] *)

Ltac unfold_js :=
  unfold copyenv in *;
  unfold bind, ret, lift, try_catch, getenv, getvar, setenv, current_env,
    async, await, member in *.

Lemma extends_refl env : extends env env.
Proof. intros k. by left. Qed.

Lemma extends_trans env1 env2 env3 :
  extends env1 env2 -> extends env2 env3 -> extends env1 env3.
Proof.
  intros H12 H23 k. destruct (H12 k) as [E12|[F12 T12]], (H23 k) as [E23|[F23 T23]].
  - left. congruence.
  - right. rewrite <- E12. done.
  - right. rewrite E23. done.
  - congruence.
Qed.

Lemma extends_insert env k v :
  truthy (env !! k) = false -> Str.nonEmpty v = true ->
  extends env (<[k := v]> env).
Proof.
  intros Hk Hv j. destruct (decide (k = j)) as [<-|Hne].
  - right. by rewrite lookup_insert_eq.
  - left. by rewrite lookup_insert_ne.
Qed.

(** A key that is set keeps its value. *)
Lemma extends_keeps env env' k :
  extends env env' -> truthy (env !! k) = true -> env' !! k = env !! k.
Proof. intros H Hk. destruct (H k) as [E|[F _]]; congruence. Qed.

(** No key is given the empty string. *)
Lemma extends_no_empty env env' k :
  extends env env' -> env' !! k = Some [] -> env !! k = Some [].
Proof.
  intros H Hk. destruct (H k) as [E|[_ T]]; [congruence|].
  rewrite Hk in T. discriminate.
Qed.

(** ** Reading [process.env] *)

Lemma required_not_inherited k :
  k ∈ REQUIRED_VARS -> bool_decide (k ∈ Object_prototype) = false.
Proof.
  intros Hk. repeat (apply elem_of_cons in Hk as [->|Hk]; [by vm_compute|]).
  inversion Hk.
Qed.

(** For the required variables the property is the variable. *)
Lemma is_set_required env k :
  k ∈ REQUIRED_VARS -> is_set env k = truthy (env !! k).
Proof.
  intros Hk. unfold is_set, property_of.
  destruct (env !! k); [done|]. by rewrite required_not_inherited.
Qed.

Lemma is_set_truthy env k : truthy (env !! k) = true -> is_set env k = true.
Proof. unfold is_set, property_of. by destruct (env !! k). Qed.

Lemma is_set_false env k : is_set env k = false -> truthy (env !! k) = false.
Proof.
  intros H. destruct (truthy (env !! k)) eqn:E; [|done].
  by rewrite is_set_truthy in H.
Qed.

Lemma is_set_ext env env' k : env' !! k = env !! k -> is_set env' k = is_set env k.
Proof. unfold is_set, property_of. by intros ->. Qed.

(** A name that is set stays set when variables are only added. *)
Lemma extends_is_set env env' k :
  extends env env' -> is_set env k = true -> is_set env' k = true.
Proof.
  intros H Hk. destruct (H k) as [E|[_ T]].
  - by rewrite (is_set_ext _ _ _ E).
  - by apply is_set_truthy.
Qed.

(** A text spelled out has no NUL. *)
Ltac text_literal :=
  unfold nul_free; apply (bool_decide_unpack _); vm_compute; exact I.

(** The outputs of a sample host are text. *)
Ltac text_host :=
  repeat split; intros ? ? E; cbn in E;
  repeat (case_bool_decide; try discriminate E);
  try discriminate E; injection E as <-; text_literal.

(** Text without NUL is kept by the store as it is. *)
Lemma c_string_text s : nul_free s -> c_string s = s.
Proof.
  unfold nul_free. induction s as [|c s IH]; [done|].
  intros [Hc Hs]%not_elem_of_cons. cbn.
  destruct (N.eqb_spec c 0); [congruence|]. by rewrite IH.
Qed.

(** On text, [setenv] is the assignment of the store. *)
Lemma setenv_text key value env :
  nul_free key -> nul_free value ->
  setenv key value env = (Normal tt, store_assign key value env).
Proof.
  intros Hk Hv. unfold setenv, store_assign. by rewrite !c_string_text.
Qed.

(** ** The hosting CLI source *)

Section NetlifyFacts.

Context (h : Host).

Lemma autoLink_total env : exists b, autoLink h env = (Normal b, env).
Proof.
  unfold autoLink. unfold_js.
  destruct (execSync h (lit "git remote get-url origin")); [|eauto].
  destruct (execSync h (lit "netlify link --git")); [eauto|].
  destruct (execSync h (lit "netlify sites:list --json")) as [out|]; [|eauto].
  destruct (JSON_parse_sites h out) as [[sites|]|]; [|eauto..].
  destruct (List.filter (possibleSite h) sites) as [|site [|? ?]]; [eauto| |eauto].
  destruct (execSync h _); eauto.
Qed.

Lemma checkLinked_total env : exists b, checkLinked h env = (Normal b, env).
Proof.
  unfold checkLinked. unfold_js.
  destruct (execSync h (lit "netlify status --json")) as [out|];
    [|apply autoLink_total].
  destruct (JSON_parse_status h out); [eauto | apply autoLink_total].
Qed.

Lemma usableValue_nonEmpty v : usableValue v = true -> Str.nonEmpty v = true.
Proof. unfold usableValue. rewrite !andb_true_iff. tauto. Qed.

(** One iteration: it completes; it writes at most [varName], and only
    when [varName] is not set and the CLI printed a usable value. *)
Lemma fetchVar_spec n varName env :
  exists n' env',
    fetchVar h n varName env = (Normal n', env')
    /\ extends env env'
    /\ n <= n'
    /\ (forall k, k <> varName -> env' !! k = env !! k)
    /\ (forall out,
          is_set env varName = false ->
          execSync h (lit "netlify env:get " ++ varName) = Normal out ->
          usableValue (Str.trim out) = true ->
          env' !! varName = Some (Str.trim out) /\ n < n').
Proof.
  unfold fetchVar. unfold_js.
  change (is_truthy (property_of env varName)) with (is_set env varName).
  destruct (is_set env varName) eqn:Hset; cbn [negb].
  { exists n, env. repeat split; auto using extends_refl; try lia; discriminate. }
  destruct (execSync h (lit "netlify env:get " ++ varName)) as [out|e] eqn:Hout.
  - destruct (usableValue (Str.trim out)) eqn:Hok.
    + exists (n + 1), (<[varName := Str.trim out]> env). repeat split; try lia.
      * apply extends_insert; auto using usableValue_nonEmpty, is_set_false.
      * intros k Hk. by rewrite lookup_insert_ne.
      * intros. by simplify_map_eq.
    + exists n, env. repeat split; auto using extends_refl; try lia;
        intros; simplify_eq; congruence.
  - exists n, env. repeat split; auto using extends_refl; try lia;
      intros; simplify_eq.
Qed.

Lemma fetch_loop_spec vars n env :
  exists n' env',
    for_of vars (fetchVar h) n env = (Normal n', env')
    /\ extends env env'
    /\ n <= n'
    /\ (forall k out,
          k ∈ vars ->
          is_set env k = false ->
          execSync h (lit "netlify env:get " ++ k) = Normal out ->
          usableValue (Str.trim out) = true ->
          env' !! k = Some (Str.trim out) /\ n < n').
Proof.
  revert n env. induction vars as [|x vars IH]; intros n env; simpl.
  - exists n, env. split; [done|]. split; [apply extends_refl|].
    split; [lia|]. intros k out Hk. inversion Hk.
  - destruct (fetchVar_spec n x env) as (n1 & env1 & E1 & X1 & L1 & O1 & S1).
    destruct (IH n1 env1) as (n2 & env2 & E2 & X2 & L2 & S2).
    exists n2, env2. unfold bind. rewrite E1, E2.
    split; [done|]. split; [eauto using extends_trans|]. split; [lia|].
    intros k out Hk Hunset Hout Hok.
    destruct (decide (k = x)) as [->|Hne].
    + destruct (S1 out Hunset Hout Hok) as [Hv Hn].
      split; [|lia]. rewrite <- Hv. apply extends_keeps; [done|].
      rewrite Hv. simpl. by apply usableValue_nonEmpty.
    + apply elem_of_cons in Hk as [?|Hk]; [done|].
      destruct (S2 k out Hk) as [Hv Hn]; auto; [|split; [done | lia]].
      by rewrite (is_set_ext env env1 k (O1 k Hne)).
Qed.

(** The CLI source completes, whatever the commands do, and only adds
    values for keys that were not set. When the site is linked and the
    CLI prints a usable value for a required variable that is not set,
    that value is stored and the source reports success. *)
Lemma loadEnvFromNetlify_spec env :
  exists loaded env',
    loadEnvFromNetlify h env = (Normal loaded, env')
    /\ extends env env'
    /\ (forall k out,
          fst (checkLinked h env) = Normal true ->
          k ∈ REQUIRED_VARS ->
          truthy (env !! k) = false ->
          execSync h (lit "netlify env:get " ++ k) = Normal out ->
          usableValue (Str.trim out) = true ->
          loaded = true /\ env' !! k = Some (Str.trim out)).
Proof.
  unfold loadEnvFromNetlify, try_catch, bind.
  destruct (checkLinked_total env) as (linked & ->).
  destruct linked; cbn [negb].
  - destruct (fetch_loop_spec REQUIRED_VARS 0 env) as (n & env' & -> & X & L & S).
    exists (0 <? n), env'. unfold ret. split; [done|]. split; [done|].
    intros k out _ Hk Hunset Hout Hok.
    rewrite <- (is_set_required env k Hk) in Hunset.
    destruct (S k out Hk Hunset Hout Hok) as [Hv Hn].
    split; [|done]. by apply Z.ltb_lt.
  - exists false, env. unfold ret. split; [done|]. split; [apply extends_refl|].
    intros ? ? [=].
Qed.

End NetlifyFacts.

(** ** The fallback file *)

Lemma lit_eq : lit "=" = [61%N].
Proof. reflexivity. Qed.

Lemma lit_hash : lit "#" = [35%N].
Proof. reflexivity. Qed.

Lemma loadLine_normal line env :
  loadLine tt line env = (Normal tt, lineEnv line env).
Proof.
  unfold lineEnv, loadLine.
  destruct (_ && _ && Str.includes _ _); [|done].
  destruct (Str.split 61 (Str.trim line)) as [|key valueParts]; [done|].
  unfold_js. by destruct (_ && _ && negb _).
Qed.

(** A line that is blank, a comment or without [=] changes nothing. *)
Lemma lineEnv_skip line env :
  blank line
  \/ (exists t, Str.trim line = 35%N :: t)
  \/ 61%N ∉ Str.trim line ->
  lineEnv line env = env.
Proof.
  unfold lineEnv, loadLine. intros [H|[H|H]].
  - apply trim_nil in H. by rewrite H.
  - apply startsWith_one in H. rewrite lit_hash, H.
    by rewrite andb_false_r.
  - rewrite <- includes_one, <- lit_eq in H.
    apply not_true_is_false in H. rewrite H. by rewrite andb_false_r.
Qed.

(** Any other line is cut at its first [=]: the key is what comes
    before, the value what comes after with its edge quotes removed. *)
Lemma lineEnv_assign line env key raw :
  Str.trim line = key ++ 61%N :: raw ->
  61%N ∉ key ->
  Str.startsWith (lit "#") (Str.trim line) = false ->
  lineEnv line env =
    if Str.nonEmpty key && Str.nonEmpty (Str.replaceEdgeQuotes raw)
       && negb (is_set env key)
    then <[key := Str.replaceEdgeQuotes raw]> env
    else env.
Proof.
  intros Ht Hkey Hhash. unfold lineEnv, loadLine, is_set. rewrite Hhash, Ht.
  assert (Str.includes (lit "=") (key ++ 61%N :: raw) = true) as ->.
  { rewrite lit_eq. apply includes_one, elem_of_app. right. constructor. }
  assert (Str.nonEmpty (key ++ 61%N :: raw) = true) as ->.
  { apply nonEmpty_true. by destruct key. }
  cbn [negb andb]. rewrite split_first by done.
  rewrite lit_eq, join_split. unfold_js.
  by destruct (_ && _ && negb _).
Qed.

Lemma lineEnv_extends line env : extends env (lineEnv line env).
Proof.
  unfold lineEnv, loadLine.
  destruct (_ && _ && Str.includes _ _); [|apply extends_refl].
  destruct (Str.split 61 (Str.trim line)) as [|key valueParts];
    [apply extends_refl|].
  unfold_js.
  destruct (Str.nonEmpty key); [|apply extends_refl].
  destruct (Str.nonEmpty (Str.replaceEdgeQuotes _)) eqn:Hv; [|apply extends_refl].
  change (is_truthy (property_of env key)) with (is_set env key).
  destruct (is_set env key) eqn:Hk; [apply extends_refl|].
  apply extends_insert; [by apply is_set_false | done].
Qed.

Lemma loadLines_spec lines env :
  for_of lines loadLine tt env
  = (Normal tt, foldl (fun env line => lineEnv line env) env lines).
Proof.
  revert env. induction lines as [|line lines IH]; intros env; [done|].
  cbn [for_of foldl]. unfold bind. by rewrite loadLine_normal, IH.
Qed.

Lemma foldl_lineEnv_extends lines env :
  extends env (foldl (fun env line => lineEnv line env) env lines).
Proof.
  revert env. induction lines as [|line lines IH]; intros env;
    [apply extends_refl|].
  cbn [foldl]. eauto using extends_trans, lineEnv_extends.
Qed.

Section FileFacts.

Context (h : Host).

Lemma loadEnvFromFile_missing env :
  existsSync h (lit ".env") = false ->
  loadEnvFromFile h env = (Normal tt, env).
Proof. unfold loadEnvFromFile. by intros ->. Qed.

Lemma loadEnvFromFile_readable env envContent :
  existsSync h (lit ".env") = true ->
  readFileSync h (lit ".env") = Normal envContent ->
  loadEnvFromFile h env
  = (Normal tt,
     foldl (fun env line => lineEnv line env) env (Str.split 10 envContent)).
Proof.
  unfold loadEnvFromFile. intros -> Hread. unfold_js. rewrite Hread.
  apply loadLines_spec.
Qed.

(** The read is not guarded: its exception leaves the function. *)
Lemma loadEnvFromFile_unreadable env e :
  existsSync h (lit ".env") = true ->
  readFileSync h (lit ".env") = Throw e ->
  loadEnvFromFile h env = (Throw e, env).
Proof.
  unfold loadEnvFromFile. intros -> Hread. unfold_js. by rewrite Hread.
Qed.

Lemma loadEnvFromFile_extends env :
  extends env (snd (loadEnvFromFile h env)).
Proof.
  destruct (existsSync h (lit ".env")) eqn:Hex.
  - destruct (readFileSync h (lit ".env")) as [envContent|e] eqn:Hread.
    + rewrite (loadEnvFromFile_readable _ envContent) by done.
      apply foldl_lineEnv_extends.
    + rewrite (loadEnvFromFile_unreadable _ e) by done. apply extends_refl.
  - rewrite loadEnvFromFile_missing by done. apply extends_refl.
Qed.

End FileFacts.

(** ** The aliases *)

Ltac distinct_keys :=
  let H := fresh in intros H; vm_compute in H; discriminate H.

Lemma mapEnvVars_eq env :
  mapEnvVars env
  = (Normal tt,
     aliasEnv STRIPE_PRICE_ID STRIPE_PRICE_RESPONSE
       (aliasEnv STRIPE_PUBLIC_KEY STRIPE_PUBLISHABLE_KEY env)).
Proof.
  unfold mapEnvVars, aliasEnv. unfold_js.
  destruct (truthy (env !! STRIPE_PUBLIC_KEY) && _); cbv beta iota;
    match goal with |- context [if ?b then _ else _] => by destruct b end.
Qed.

Lemma aliasEnv_extends alias canonical env :
  extends env (aliasEnv alias canonical env).
Proof.
  unfold aliasEnv.
  destruct (truthy (env !! alias)) eqn:Ha; [|apply extends_refl].
  destruct (truthy (env !! canonical)) eqn:Hc; [apply extends_refl|].
  apply extends_insert; [done|]. by destruct (env !! alias).
Qed.

Lemma mapEnvVars_extends env : extends env (snd (mapEnvVars env)).
Proof.
  rewrite mapEnvVars_eq. eauto using extends_trans, aliasEnv_extends.
Qed.

(** ** The probes and the verdict *)

Section ProbeFacts.

Context (h : Host).

Lemma checkOpenAI_settles env : exists r, checkOpenAI h env = (Normal r, env).
Proof.
  unfold checkOpenAI. unfold_js.
  destruct (chat_completions_create h _); eauto.
Qed.

Lemma checkSupabase_settles env : exists r, checkSupabase h env = (Normal r, env).
Proof.
  unfold checkSupabase. unfold_js.
  destruct (system_check_insert h _ _) as [[[err|]]|]; eauto.
Qed.

Lemma checkStripe_settles env : exists r, checkStripe h env = (Normal r, env).
Proof.
  unfold checkStripe. unfold_js.
  destruct (prices_retrieve h _ _) as [[[id|p]]|]; [|eauto..].
  cbn [product]. destruct (products_retrieve h _ _); eauto.
Qed.

Lemma checkSendGrid_settles env : exists r, checkSendGrid h env = (Normal r, env).
Proof.
  unfold checkSendGrid. unfold_js.
  destruct (sgMail_client_request h _); eauto.
Qed.

(** The site probe, case by case. *)
Lemma checkSiteUrl_eq env :
  checkSiteUrl h env =
  (Normal
     match fetch h (env !! SITE_URL) with
     | Normal res =>
         {| ok := JBool (status res =? 200);
            ms := nowMs_end h SiteUrl - nowMs_start h SiteUrl;
            detail := lit "HTTP " ++ Number_toString (status res) |}
     | Throw e =>
         {| ok := JBool false;
            ms := nowMs_end h SiteUrl - nowMs_start h SiteUrl;
            detail := errorDetail e |}
     end, env).
Proof.
  unfold checkSiteUrl. unfold_js. by destruct (fetch h _).
Qed.

Lemma checkSiteUrl_settles env : exists r, checkSiteUrl h env = (Normal r, env).
Proof. rewrite checkSiteUrl_eq. eauto. Qed.

(** Every probe records both readings of the clock, on either path. *)
Lemma probe_elapsed env :
  forall r,
    (checkOpenAI h env = (Normal r, env) ->
       ms r = nowMs_end h OpenAI - nowMs_start h OpenAI)
    /\ (checkSupabase h env = (Normal r, env) ->
       ms r = nowMs_end h Supabase - nowMs_start h Supabase)
    /\ (checkStripe h env = (Normal r, env) ->
       ms r = nowMs_end h Stripe - nowMs_start h Stripe)
    /\ (checkSendGrid h env = (Normal r, env) ->
       ms r = nowMs_end h SendGrid - nowMs_start h SendGrid)
    /\ (checkSiteUrl h env = (Normal r, env) ->
       ms r = nowMs_end h SiteUrl - nowMs_start h SiteUrl).
Proof.
  intros r. repeat split.
  - unfold checkOpenAI. unfold_js.
    destruct (chat_completions_create h _); intros [= <-]; done.
  - unfold checkSupabase. unfold_js.
    destruct (system_check_insert h _ _) as [[[err|]]|]; intros [= <-]; done.
  - unfold checkStripe. unfold_js.
    destruct (prices_retrieve h _ _) as [[[id|p]]|]; cbn [product];
      [destruct (products_retrieve h _ _)|..]; intros [= <-]; done.
  - unfold checkSendGrid. unfold_js.
    destruct (sgMail_client_request h _); intros [= <-]; done.
  - rewrite checkSiteUrl_eq. destruct (fetch h _); intros [= <-]; done.
Qed.

Lemma logEnvStatus_loop keys acc env :
  for_of keys
    (fun results key =>
       let! env := current_env in
       ret (results ++ [(key, present env key)]))
    acc env
  = (Normal (acc ++ ((fun key => (key, present env key)) <$> keys)), env).
Proof.
  revert acc. induction keys as [|key keys IH]; intros acc.
  - cbn. by rewrite app_nil_r.
  - cbn [for_of fmap list_fmap]. unfold bind at 1. unfold bind at 1.
    unfold current_env at 1. unfold ret at 1. rewrite IH.
    by rewrite <- app_assoc.
Qed.

Lemma logEnvStatus_eq env :
  logEnvStatus env
  = (Normal ((fun key => (key, present env key)) <$> REQUIRED_VARS), env).
Proof. apply (logEnvStatus_loop REQUIRED_VARS []). Qed.

Lemma resolveEnv_extends env : extends env (snd (resolveEnv h env)).
Proof.
  unfold resolveEnv, bind.
  destruct (loadEnvFromNetlify_spec h env) as (loaded & env1 & -> & X1 & _).
  destruct loaded.
  - unfold ret. eauto using extends_trans, mapEnvVars_extends.
  - pose proof (loadEnvFromFile_extends h env1) as X2.
    destruct (loadEnvFromFile h env1) as [[[]|e] env2]; cbn [snd] in *.
    + eauto using extends_trans, mapEnvVars_extends.
    + eauto using extends_trans.
Qed.

(** [main] stops where the resolution throws. *)
Lemma main_throws env e env' :
  resolveEnv h env = (Throw e, env') -> main h env = (Throw e, env').
Proof.
  unfold resolveEnv, main, bind.
  destruct (loadEnvFromNetlify h env) as [[loaded|e1] env1];
    [|by intros [= -> ->]].
  destruct ((if loaded then ret tt else loadEnvFromFile h) env1)
    as [[[]|e2] env2]; [|by intros [= -> ->]].
  rewrite mapEnvVars_eq. discriminate.
Qed.

Lemma missing_filter (f : jstr -> bool) keys :
  fst <$> List.filter (fun entry => negb (snd entry))
            ((fun key => (key, f key)) <$> keys)
  = List.filter (fun key => negb (f key)) keys.
Proof.
  induction keys as [|key keys IH]; [done|].
  cbn. destruct (f key); cbn; by rewrite IH.
Qed.

Lemma none_missing (f : jstr -> bool) keys :
  (length (List.filter (fun key => negb (f key)) keys) =? 0)%nat
  = forallb f keys.
Proof.
  induction keys as [|key keys IH]; [done|].
  cbn. by destruct (f key).
Qed.

(** After the resolution [main] runs the five probes and decides. *)
Lemma main_resolved env env' :
  resolveEnv h env = (Normal tt, env') ->
  exists r0 r1 r2 r3 r4 run,
    checkOpenAI h env' = (Normal r0, env')
    /\ checkSupabase h env' = (Normal r1, env')
    /\ checkStripe h env' = (Normal r2, env')
    /\ checkSendGrid h env' = (Normal r3, env')
    /\ checkSiteUrl h env' = (Normal r4, env')
    /\ main h env = (Normal run, env')
    /\ envStatus run = (fun key => (key, present env' key)) <$> REQUIRED_VARS
    /\ report run =
         [ (lit "openai", r0); (lit "supabase", r1); (lit "stripe", r2);
           (lit "sendgrid", r3); (lit "site", r4) ]
    /\ avgTime run =
         Math_round
           (inject_Z (ms r0 + ms r1 + ms r2 + ms r3 + ms r4) / inject_Z 5)%Q
    /\ missingKeys run =
         List.filter (fun key => negb (present env' key)) REQUIRED_VARS
    /\ exitCode run =
         if forallb (present env') REQUIRED_VARS
            && forallb (fun r => ToBoolean (ok r)) [r0; r1; r2; r3; r4]
         then 0 else 1.
Proof.
  intros Hres.
  destruct (checkOpenAI_settles env') as [r0 H0].
  destruct (checkSupabase_settles env') as [r1 H1].
  destruct (checkStripe_settles env') as [r2 H2].
  destruct (checkSendGrid_settles env') as [r3 H3].
  destruct (checkSiteUrl_settles env') as [r4 H4].
  exists r0, r1, r2, r3, r4.
  revert Hres. unfold resolveEnv, main, bind.
  destruct (loadEnvFromNetlify h env) as [[loaded|e1] env1]; [|discriminate].
  destruct ((if loaded then ret tt else loadEnvFromFile h) env1)
    as [[[]|e2] env2]; [|discriminate].
  rewrite mapEnvVars_eq. intros [= <-].
  rewrite logEnvStatus_eq. unfold async. rewrite H0, H1, H2, H3, H4.
  eexists. repeat (split; [reflexivity|]). cbn [exitCode missingKeys].
  rewrite missing_filter. split; [done|]. by rewrite none_missing.
Qed.

End ProbeFacts.

Lemma main_env h env : snd (main h env) = snd (resolveEnv h env).
Proof.
  destruct (resolveEnv h env) as [[[]|e] env'] eqn:R.
  - destruct (main_resolved h env env' R)
      as (? & ? & ? & ? & ? & run & _ & _ & _ & _ & _ & -> & _). done.
  - by rewrite (main_throws h env e env' R).
Qed.

(** ** The verdict *)

Lemma prod_check_zero_iff (h : Host) (env : Env) :
  (prod_check h env = 0 \/ prod_check h env = 1)
  /\ (prod_check h env = 0 <->
      exists env' r0 r1 r2 r3 r4,
        resolveEnv h env = (Normal tt, env')
        /\ checkOpenAI h env' = (Normal r0, env')
        /\ checkSupabase h env' = (Normal r1, env')
        /\ checkStripe h env' = (Normal r2, env')
        /\ checkSendGrid h env' = (Normal r3, env')
        /\ checkSiteUrl h env' = (Normal r4, env')
        /\ (forall key, key ∈ REQUIRED_VARS -> present env' key = true)
        /\ (forall r, r ∈ [r0; r1; r2; r3; r4] -> ToBoolean (ok r) = true)).
Proof.
  unfold prod_check.
  destruct (resolveEnv h env) as [[[]|e] env'] eqn:R.
  - destruct (main_resolved h env env' R)
      as (r0 & r1 & r2 & r3 & r4 & run & H0 & H1 & H2 & H3 & H4 & -> & _ & _ & _ & _ & Hexit).
    rewrite Hexit. clear Hexit.
    destruct (forallb (present env') REQUIRED_VARS) eqn:Henv;
      destruct (forallb (fun r => ToBoolean (ok r)) [r0; r1; r2; r3; r4]) eqn:Hok;
      cbn [andb]; (split; [auto|]); (split; [try discriminate | try done]).
    + intros _. exists env', r0, r1, r2, r3, r4.
      rewrite forallb_forall in Henv, Hok.
      setoid_rewrite <- list_elem_of_In in Henv.
      setoid_rewrite <- list_elem_of_In in Hok. done.
    + intros (env2 & s0 & s1 & s2 & s3 & s4 & [= <-] & E0 & E1 & E2 & E3 & E4 & _ & Hall).
      assert (forallb (fun r => ToBoolean (ok r)) [r0; r1; r2; r3; r4] = true);
        [|congruence].
      apply forallb_forall. setoid_rewrite <- list_elem_of_In.
      assert (s0 = r0) as -> by congruence. assert (s1 = r1) as -> by congruence.
      assert (s2 = r2) as -> by congruence. assert (s3 = r3) as -> by congruence.
      assert (s4 = r4) as -> by congruence. done.
    + intros (env2 & s0 & s1 & s2 & s3 & s4 & [= <-] & _ & _ & _ & _ & _ & Hall & _).
      assert (forallb (present env') REQUIRED_VARS = true); [|congruence].
      apply forallb_forall. by setoid_rewrite <- list_elem_of_In.
    + intros (env2 & s0 & s1 & s2 & s3 & s4 & [= <-] & _ & _ & _ & _ & _ & Hall & _).
      assert (forallb (present env') REQUIRED_VARS = true); [|congruence].
      apply forallb_forall. by setoid_rewrite <- list_elem_of_In.
  - rewrite (main_throws h env e env' R). split; [auto|].
    split; [discriminate|]. by intros (? & ? & ? & ? & ? & ? & [=] & _).
Qed.

(** ** Sample runs *)

Example ready_exits_0 :
  prod_check (responding 200) (all_set (lit "x")) = 0.
Proof. reflexivity. Qed.

Example one_missing_exits_1 :
  prod_check (responding 200) (delete ENVIRONMENT (all_set (lit "x"))) = 1.
Proof. reflexivity. Qed.

Example redirect_exits_1 :
  prod_check (responding 301) (all_set (lit "x")) = 1
  /\ fst (checkSiteUrl (responding 301) (all_set (lit "x")))
     = Normal {| ok := JBool false; ms := 50; detail := lit "HTTP 301" |}.
Proof. split; reflexivity. Qed.

Example offline_all_fail :
  exists run,
    fst (main offline ∅) = Normal run
    /\ length (report run) = 5%nat
    /\ forallb (fun r => negb (ToBoolean (ok r))) (Object_values (report run)) = true
    /\ missingKeys run = REQUIRED_VARS
    /\ exitCode run = 1.
Proof. eexists. repeat split; reflexivity. Qed.

Example aliases_only :
  snd (resolveEnv
         (with_file offline
            (Normal (lit "STRIPE_PUBLIC_KEY=pk_1" ++ [10%N]
                     ++ lit "STRIPE_PRICE_ID='price_1'")))
         ∅)
  = {[ STRIPE_PUBLIC_KEY := lit "pk_1"; STRIPE_PRICE_ID := lit "price_1";
       STRIPE_PUBLISHABLE_KEY := lit "pk_1";
       STRIPE_PRICE_RESPONSE := lit "price_1" ]}.
Proof. by vm_compute. Qed.

(** ** The claims *)

(** C1. The process exits with code 0 exactly when the resolution of the
    environment completes, every one of the ten required variables is
    present in the resolved environment and every one of the five probes
    reports success; in every other case it exits with code 1, in
    particular when a required variable is missing or a probe fails. *)
Theorem exit_code_verdict (h : Host) (env : Env) :
  length REQUIRED_VARS = 10%nat
  /\ length (probes h) = 5%nat
  /\ (prod_check h env = 0 \/ prod_check h env = 1)
  /\ (prod_check h env = 0 <->
      exists env',
        resolveEnv h env = (Normal tt, env')
        /\ (forall key, key ∈ REQUIRED_VARS -> present env' key = true)
        /\ (forall probe, probe ∈ probes h ->
              exists r, probe env' = (Normal r, env') /\ ToBoolean (ok r) = true))
  /\ ((exists key, key ∈ REQUIRED_VARS /\ present (snd (main h env)) key = false)
      \/ (exists probe r,
            probe ∈ probes h
            /\ fst (probe (snd (main h env))) = Normal r
            /\ ToBoolean (ok r) = false) ->
      prod_check h env = 1).
Proof.
  destruct (prod_check_zero_iff h env) as [Hcode Hzero].
  assert (prod_check h env = 0 <->
      exists env',
        resolveEnv h env = (Normal tt, env')
        /\ (forall key, key ∈ REQUIRED_VARS -> present env' key = true)
        /\ (forall probe, probe ∈ probes h ->
              exists r, probe env' = (Normal r, env') /\ ToBoolean (ok r) = true))
    as Hiff.
  { rewrite Hzero. split.
    - intros (env' & r0 & r1 & r2 & r3 & r4 & R & H0 & H1 & H2 & H3 & H4 & Henv & Hok).
      exists env'. split; [done|]. split; [done|].
      intros probe Hp. unfold probes in Hp.
      repeat (apply elem_of_cons in Hp as [->|Hp]);
        [exists r0 | exists r1 | exists r2 | exists r3 | exists r4 | by inversion Hp];
        (split; [done|]); apply Hok; repeat constructor.
    - intros (env' & R & Henv & Hok).
      destruct (Hok (checkOpenAI h)) as (r0 & H0 & K0); [repeat constructor|].
      destruct (Hok (checkSupabase h)) as (r1 & H1 & K1); [repeat constructor|].
      destruct (Hok (checkStripe h)) as (r2 & H2 & K2); [repeat constructor|].
      destruct (Hok (checkSendGrid h)) as (r3 & H3 & K3); [repeat constructor|].
      destruct (Hok (checkSiteUrl h)) as (r4 & H4 & K4); [repeat constructor|].
      exists env', r0, r1, r2, r3, r4. repeat (split; [done|]).
      intros r Hr. repeat (apply elem_of_cons in Hr as [->|Hr]); try done.
      by inversion Hr. }
  repeat (split; [done|]).
  intros Hbad. destruct Hcode as [Hc|Hc]; [|done].
  apply Hiff in Hc as (env' & R & Henv & Hok).
  rewrite main_env, R in Hbad. cbn [snd] in Hbad.
  destruct Hbad as [(key & Hkey & Hmiss)|(probe & r & Hp & Hr & Hfail)].
  - specialize (Henv key Hkey). congruence.
  - destruct (Hok probe Hp) as (r' & Hr' & Hgood).
    rewrite Hr' in Hr. cbn [fst] in Hr. congruence.
Qed.

(** C2. Whatever the vendor calls do, each of the five probes settles
    with a Check Result (none of them rejects), so [Promise.all] is
    fulfilled with exactly five results, one per probe and in the order
    of the probes, and [main] goes on to its report with these five. *)
Theorem all_probes_settle (h : Host) (env : Env) :
  exists r0 r1 r2 r3 r4,
    async (checkOpenAI h) env = (Normal (Fulfilled r0), env)
    /\ async (checkSupabase h) env = (Normal (Fulfilled r1), env)
    /\ async (checkStripe h) env = (Normal (Fulfilled r2), env)
    /\ async (checkSendGrid h) env = (Normal (Fulfilled r3), env)
    /\ async (checkSiteUrl h) env = (Normal (Fulfilled r4), env)
    /\ Promise_all
         [Fulfilled r0; Fulfilled r1; Fulfilled r2; Fulfilled r3; Fulfilled r4]
       = Fulfilled [r0; r1; r2; r3; r4]
    /\ length [r0; r1; r2; r3; r4] = 5%nat
    /\ (forall env0,
          resolveEnv h env0 = (Normal tt, env) ->
          exists run,
            main h env0 = (Normal run, env)
            /\ Object_values (report run) = [r0; r1; r2; r3; r4]).
Proof.
  destruct (checkOpenAI_settles h env) as [r0 H0].
  destruct (checkSupabase_settles h env) as [r1 H1].
  destruct (checkStripe_settles h env) as [r2 H2].
  destruct (checkSendGrid_settles h env) as [r3 H3].
  destruct (checkSiteUrl_settles h env) as [r4 H4].
  exists r0, r1, r2, r3, r4. unfold async. rewrite H0, H1, H2, H3, H4.
  repeat (split; [done|]).
  intros env0 R.
  destruct (main_resolved h env0 env R)
    as (s0 & s1 & s2 & s3 & s4 & run & E0 & E1 & E2 & E3 & E4 & Hmain & _ & Hrep & _).
  exists run. split; [done|]. rewrite Hrep. cbn.
  repeat f_equal; congruence.
Qed.

(** The read of [.env] is the one step of the resolution that is not
    guarded: when the CLI source has loaded nothing and the file exists
    but cannot be read, the exception leaves [main]. *)
Lemma unreadable_file_escapes (h : Host) (env : Env) (e : JsError) :
  fst (loadEnvFromNetlify h env) = Normal false ->
  existsSync h (lit ".env") = true ->
  readFileSync h (lit ".env") = Throw e ->
  fst (resolveEnv h env) = Throw e
  /\ fst (main h env) = Throw e
  /\ prod_check h env = 1.
Proof.
  intros Hcli Hex Hread.
  assert (fst (resolveEnv h env) = Throw e) as R.
  { unfold resolveEnv, bind.
    destruct (loadEnvFromNetlify h env) as [c env1]. cbn in Hcli. subst c.
    by rewrite (loadEnvFromFile_unreadable h env1 e). }
  split; [done|].
  destruct (resolveEnv h env) as [c env'] eqn:R'. cbn in R. subst c.
  unfold prod_check. rewrite (main_throws h env e env' R'). done.
Qed.

(** C3, at the input where the code fails it. With no CLI and a file
    [.env] that exists but cannot be read, the resolver throws: the read
    is the one fallible step of the resolution outside every [try], so
    it is not true that resolution always completes. [main] stops there,
    no probe runs, and the process exits with code 1 from the top-level
    handler. *)
Theorem resolver_throws_on_unreadable_file :
  ~ (forall (h : Host) (env : Env),
       exists env', resolveEnv h env = (Normal tt, env'))
  /\ loadEnvFromFile (with_file offline (Throw EACCES)) ∅ = (Throw EACCES, ∅)
  /\ resolveEnv (with_file offline (Throw EACCES)) ∅ = (Throw EACCES, ∅)
  /\ main (with_file offline (Throw EACCES)) ∅ = (Throw EACCES, ∅)
  /\ prod_check (with_file offline (Throw EACCES)) ∅ = 1.
Proof.
  assert (resolveEnv (with_file offline (Throw EACCES)) ∅ = (Throw EACCES, ∅))
    as R by reflexivity.
  split.
  - intros Hall.
    destruct (Hall (with_file offline (Throw EACCES)) ∅) as [env' Henv'].
    rewrite R in Henv'. discriminate Henv'.
  - split; [reflexivity|]. split; [exact R|].
    split; [apply main_throws, R|].
    apply (unreadable_file_escapes _ _ EACCES); reflexivity.
Qed.

Lemma resolveEnv_after_cli (h : Host) (env : Env) :
  extends (snd (loadEnvFromNetlify h env)) (snd (resolveEnv h env)).
Proof.
  unfold resolveEnv, bind.
  destruct (loadEnvFromNetlify_spec h env) as (loaded & env1 & -> & _).
  cbn [snd]. destruct loaded.
  - unfold ret. apply mapEnvVars_extends.
  - pose proof (loadEnvFromFile_extends h env1) as X2.
    destruct (loadEnvFromFile h env1) as [[[]|e] env2]; cbn [snd] in *;
      eauto using extends_trans, mapEnvVars_extends.
Qed.

Lemma set_keeps env env' (k v : jstr) :
  extends env env' -> env !! k = Some v -> v <> [] -> env' !! k = Some v.
Proof.
  intros X Hk Hv. rewrite <- Hk. apply extends_keeps; [done|].
  rewrite Hk. by apply nonEmpty_true.
Qed.

(** C4. A key that has a value (one that [process.env[key]] finds set:
    defined and not empty) keeps it through the CLI source, through the
    fallback file and through the whole run. When the site is linked and
    the CLI prints a usable value, text without NUL, for a required key
    that is not set, that value is the final one, whatever [.env] says
    about the key. *)
Theorem first_writer_wins (h : Host) (env : Env) (k : jstr) :
  (forall v,
     env !! k = Some v -> v <> [] ->
     snd (loadEnvFromNetlify h env) !! k = Some v
     /\ snd (loadEnvFromFile h env) !! k = Some v
     /\ snd (main h env) !! k = Some v)
  /\ (forall out,
        fst (checkLinked h env) = Normal true ->
        k ∈ REQUIRED_VARS ->
        truthy (env !! k) = false ->
        execSync h (lit "netlify env:get " ++ k) = Normal out ->
        nul_free out ->
        usableValue (Str.trim out) = true ->
        snd (loadEnvFromNetlify h env) !! k = Some (Str.trim out)
        /\ snd (main h env) !! k = Some (Str.trim out)).
Proof.
  split.
  - intros v Hk Hv.
    destruct (loadEnvFromNetlify_spec h env) as (loaded & env1 & E & X & _).
    rewrite E. cbn [snd]. rewrite main_env.
    eauto 6 using set_keeps, loadEnvFromFile_extends, resolveEnv_extends.
  - intros out Hlinked Hk Hunset Hout _ Hok.
    pose proof (resolveEnv_after_cli h env) as Xafter.
    destruct (loadEnvFromNetlify_spec h env) as (loaded & env1 & E & _ & Hcli).
    rewrite E in *. cbn [snd] in *.
    destruct (Hcli k out Hlinked Hk Hunset Hout Hok) as [_ Hv].
    split; [done|]. rewrite main_env.
    apply (set_keeps env1); [done..|].
    apply nonEmpty_true. by apply usableValue_nonEmpty.
Qed.

Lemma first_writer_wins_witness :
  snd (main linked ∅) !! SITE_URL = Some (lit "https://auditresponse.ai")
  /\ snd (main (with_file offline (Normal (lit "SITE_URL=http://localhost:8888")))
            {[ SITE_URL := lit "https://auditresponse.ai" ]}) !! SITE_URL
     = Some (lit "https://auditresponse.ai").
Proof.
  split.
  - apply (proj2 (first_writer_wins linked ∅ SITE_URL)
             (lit "https://auditresponse.ai" ++ [10%N])).
    + reflexivity.
    + apply (bool_decide_unpack _). vm_compute. exact I.
    + reflexivity.
    + reflexivity.
    + apply (bool_decide_unpack _). vm_compute. exact I.
    + reflexivity.
  - apply (proj1 (first_writer_wins _ _ SITE_URL)).
    + reflexivity.
    + discriminate.
Defined.

(** C5. [mapEnvVars] completes, and for each of the two alias pairs: when
    the alias is set and the canonical name is not (undefined, or empty),
    the canonical name gets the alias's value; when the canonical name is
    set, it keeps its value. Set means what the script tests:
    [process.env[name]] is defined and not the empty string. *)
Theorem alias_mapping (env : Env) (alias canonical : jstr) :
  (alias, canonical) ∈
    [ (STRIPE_PUBLIC_KEY, STRIPE_PUBLISHABLE_KEY);
      (STRIPE_PRICE_ID, STRIPE_PRICE_RESPONSE) ] ->
  fst (mapEnvVars env) = Normal tt
  /\ (truthy (env !! alias) = true ->
      truthy (env !! canonical) = false ->
      snd (mapEnvVars env) !! canonical = env !! alias)
  /\ (truthy (env !! canonical) = true ->
      snd (mapEnvVars env) !! canonical = env !! canonical).
Proof.
  intros Hpair. rewrite mapEnvVars_eq. cbn [fst snd]. split; [done|].
  assert (STRIPE_PRICE_RESPONSE <> STRIPE_PUBLISHABLE_KEY) as N1 by distinct_keys.
  assert (STRIPE_PUBLISHABLE_KEY <> STRIPE_PRICE_ID) as N2 by distinct_keys.
  assert (STRIPE_PUBLISHABLE_KEY <> STRIPE_PRICE_RESPONSE) as N3 by distinct_keys.
  split.
  - intros Ha Hc.
    apply elem_of_cons in Hpair as [[= -> ->]|Hpair];
      [|apply elem_of_cons in Hpair as [[= -> ->]|Hpair]; [|by inversion Hpair]].
    + unfold aliasEnv at 1.
      destruct (truthy (aliasEnv _ _ env !! STRIPE_PRICE_ID) && _);
        [rewrite lookup_insert_ne by done|];
        unfold aliasEnv; rewrite Ha, Hc; cbn [andb negb];
        rewrite lookup_insert_eq; by destruct (env !! STRIPE_PUBLIC_KEY).
    + unfold aliasEnv at 1.
      assert (forall key, key <> STRIPE_PUBLISHABLE_KEY ->
               aliasEnv STRIPE_PUBLIC_KEY STRIPE_PUBLISHABLE_KEY env !! key
               = env !! key) as Hsame.
      { intros key Hkey. unfold aliasEnv. destruct (_ && _); [|done].
        by rewrite lookup_insert_ne. }
      rewrite !Hsame by done. rewrite Ha, Hc. cbn [andb negb].
      rewrite lookup_insert_eq. by destruct (env !! STRIPE_PRICE_ID).
  - intros Hc. apply extends_keeps; [|done].
    eauto using extends_trans, aliasEnv_extends.
Qed.

Lemma alias_mapping_witness :
  snd (mapEnvVars {[ STRIPE_PUBLIC_KEY := lit "pk_live_1";
                     STRIPE_PRICE_ID := lit "price_1" ]})
    !! STRIPE_PUBLISHABLE_KEY = Some (lit "pk_live_1")
  /\ snd (mapEnvVars {[ STRIPE_PUBLIC_KEY := lit "pk_live_1";
                        STRIPE_PRICE_ID := lit "price_1" ]})
       !! STRIPE_PRICE_RESPONSE = Some (lit "price_1").
Proof.
  split.
  - destruct (alias_mapping
                {[ STRIPE_PUBLIC_KEY := lit "pk_live_1";
                   STRIPE_PRICE_ID := lit "price_1" ]}
                STRIPE_PUBLIC_KEY STRIPE_PUBLISHABLE_KEY) as (_ & Hcopy & _).
    + constructor.
    + rewrite Hcopy; reflexivity.
  - destruct (alias_mapping
                {[ STRIPE_PUBLIC_KEY := lit "pk_live_1";
                   STRIPE_PRICE_ID := lit "price_1" ]}
                STRIPE_PRICE_ID STRIPE_PRICE_RESPONSE) as (_ & Hcopy & _).
    + constructor. constructor.
    + rewrite Hcopy; reflexivity.
Defined.

(** C6. When [.env] can be read, [loadEnvFromFile] completes and goes
    through the lines of the content one after the other. A blank line
    and a line that starts with [#] change nothing. Any other line with
    an [=] is cut at its first [=] only: the key is what comes before,
    the value all that comes after (further [=] included) without one
    leading and one trailing quote character; for a line of text without
    NUL the key is assigned this value exactly when key and value are not
    empty and the key is not already set, that is [process.env[key]] is
    not truthy (a name that [Object.prototype] defines counts as set). A
    variable that is set is never changed. The sample file (a comment, a
    blank line, [KEY="quoted value"]) gives exactly one entry. *)
Theorem fallback_file_parser (h : Host) (envContent : jstr) (env : Env) :
  existsSync h (lit ".env") = true ->
  readFileSync h (lit ".env") = Normal envContent ->
  loadEnvFromFile h env
  = (Normal tt,
     foldl (fun env line => lineEnv line env) env (Str.split 10 envContent))
  /\ (forall line env,
        blank line \/ (exists t, Str.trim line = 35%N :: t) ->
        lineEnv line env = env)
  /\ (forall line env key raw,
        nul_free (Str.trim line) ->
        Str.trim line = key ++ 61%N :: raw ->
        61%N ∉ key ->
        Str.startsWith (lit "#") (Str.trim line) = false ->
        lineEnv line env =
          if Str.nonEmpty key && Str.nonEmpty (Str.replaceEdgeQuotes raw)
             && negb (is_set env key)
          then <[key := Str.replaceEdgeQuotes raw]> env
          else env)
  /\ (forall q1 q2 s,
        Str.isQuote q1 = true -> Str.isQuote q2 = true ->
        Str.replaceEdgeQuotes (q1 :: s ++ [q2]) = s)
  /\ (forall line env key,
        truthy (env !! key) = true -> lineEnv line env !! key = env !! key)
  /\ (envContent = sample_file -> env = ∅ ->
      snd (loadEnvFromFile h env) = {[ lit "KEY" := lit "quoted value" ]}).
Proof.
  intros Hex Hread.
  pose proof (loadEnvFromFile_readable h env envContent Hex Hread) as Hload.
  split; [done|].
  split; [intros line env0 Hskip; apply lineEnv_skip; tauto|].
  split; [intros line env0 key raw _; apply lineEnv_assign|].
  split; [apply replaceEdgeQuotes_quoted|].
  split.
  - intros line env0 key Hset.
    by apply extends_keeps; [apply lineEnv_extends|].
  - intros -> ->. rewrite Hload. cbn [snd]. by vm_compute.
Qed.

Lemma fallback_file_parser_witness :
  loadEnvFromFile (with_file offline (Normal sample_file)) ∅
  = (Normal tt, {[ lit "KEY" := lit "quoted value" ]})
  /\ lineEnv (lit "A=b=c") ∅ = {[ lit "A" := lit "b=c" ]}
  /\ lineEnv (lit "toString=abc") ∅ = ∅.
Proof.
  destruct (fallback_file_parser (with_file offline (Normal sample_file))
              sample_file ∅) as (Hload & _ & Hline & _ & _ & Hsample);
    [reflexivity | reflexivity |].
  split; [|split].
  - rewrite Hload in *. cbn [snd] in Hsample. rewrite Hsample; reflexivity.
  - rewrite (Hline (lit "A=b=c") ∅ (lit "A") (lit "b=c"));
      [reflexivity | text_literal | reflexivity | | reflexivity].
    apply (bool_decide_unpack _). vm_compute. exact I.
  - rewrite (Hline (lit "toString=abc") ∅ (lit "toString") (lit "abc"));
      [reflexivity | text_literal | reflexivity | | reflexivity].
    apply (bool_decide_unpack _). vm_compute. exact I.
Defined.

(** C10. The fallback file never assigns an empty value: when the
    content of [.env] is text without NUL, a key that is the empty string
    after [loadEnvFromFile] was the empty string before. A line whose
    value is empty once its edge quotes are removed, and a line without
    [=], leave the environment as it is; so do [KEY=] and [KEY=""]. *)
Theorem no_empty_assignment (h : Host) (env : Env) :
  ((forall content,
      readFileSync h (lit ".env") = Normal content -> nul_free content) ->
   forall key,
     snd (loadEnvFromFile h env) !! key = Some [] -> env !! key = Some [])
  /\ (forall line key raw,
        Str.trim line = key ++ 61%N :: raw ->
        61%N ∉ key ->
        Str.replaceEdgeQuotes raw = [] ->
        lineEnv line env = env)
  /\ (forall line, 61%N ∉ Str.trim line -> lineEnv line env = env)
  /\ lineEnv (lit "KEY=") env = env
  /\ lineEnv (lit "KEY=" ++ [34%N; 34%N]) env = env.
Proof.
  assert (forall line key raw,
        Str.trim line = key ++ 61%N :: raw ->
        61%N ∉ key ->
        Str.replaceEdgeQuotes raw = [] ->
        lineEnv line env = env) as Hempty.
  { intros line key raw Ht Hkey Hraw.
    destruct (Str.startsWith (lit "#") (Str.trim line)) eqn:Hhash.
    - apply lineEnv_skip. right. left. rewrite lit_hash in Hhash.
      by apply startsWith_one.
    - rewrite (lineEnv_assign line env key raw) by done.
      rewrite Hraw. cbn [Str.nonEmpty]. by rewrite andb_false_r. }
  split; [|split; [done|split]].
  - intros _ key. apply extends_no_empty, loadEnvFromFile_extends.
  - intros line Hline. apply lineEnv_skip. tauto.
  - split.
    + apply (Hempty _ (lit "KEY") []); [reflexivity| |reflexivity].
      apply (bool_decide_unpack _). by vm_compute.
    + apply (Hempty _ (lit "KEY") [34%N; 34%N]); [reflexivity| |reflexivity].
      apply (bool_decide_unpack _). by vm_compute.
Qed.

Lemma no_empty_assignment_witness :
  lineEnv (lit "KEY no equals sign") ∅ = ∅
  /\ lineEnv (lit "KEY=''") ∅ = ∅
  /\ ({[ lit "KEY" := [] ]} : Env) !! lit "KEY" = Some [].
Proof.
  destruct (no_empty_assignment offline ∅) as (_ & Hempty & Hnoeq & _).
  split; [|split].
  - apply Hnoeq. apply (bool_decide_unpack _). vm_compute. exact I.
  - apply (Hempty _ (lit "KEY") (lit "''")); [reflexivity| |reflexivity].
    apply (bool_decide_unpack _). vm_compute. exact I.
  - apply (proj1 (no_empty_assignment
                    (with_file offline (Normal (lit "KEY=''")))
                    {[ lit "KEY" := [] ]})).
    + intros content [= <-]. text_literal.
    + reflexivity.
Defined.

Lemma lit_inj (a b : string) : lit a = lit b -> a = b.
Proof.
  unfold lit. intros H.
  assert (Inj (=) (=) (fun c : ascii => N_of_ascii c)) as Hinj.
  { intros x y Hxy. by rewrite <- (ascii_N_embedding x), Hxy, ascii_N_embedding. }
  apply (inj (fmap _)) in H.
  by rewrite <- (string_of_list_ascii_of_string a), H,
    string_of_list_ascii_of_string.
Qed.

Lemma Number_toString_inj (a b : Z) :
  Number_toString a = Number_toString b -> a = b.
Proof. unfold Number_toString. intros H%lit_inj. by apply (inj pretty). Qed.

(** C7. The site probe always settles with a result; the result is a
    success exactly when the GET returned and its status is 200. For any
    other status the result is a failure, and in both cases the detail is
    [HTTP] followed by the status in decimal, which determines the
    status; a 301 gives a failure with detail [HTTP 301]. *)
Theorem site_probe_exact_status (h : Host) (env : Env) :
  exists r,
    checkSiteUrl h env = (Normal r, env)
    /\ (ToBoolean (ok r) = true <->
        exists res, fetch h (env !! SITE_URL) = Normal res /\ status res = 200)
    /\ (forall res,
          fetch h (env !! SITE_URL) = Normal res ->
          detail r = lit "HTTP " ++ Number_toString (status res)
          /\ (status res <> 200 -> ok r = JBool false)
          /\ (status res = 301 ->
              ok r = JBool false /\ detail r = lit "HTTP 301"))
    /\ (forall a b, Number_toString a = Number_toString b -> a = b).
Proof.
  rewrite checkSiteUrl_eq. eexists. split; [reflexivity|].
  destruct (fetch h (env !! SITE_URL)) as [res|e]; cbn [ok detail ToBoolean].
  - split; [|split; [|apply Number_toString_inj]].
    + rewrite Z.eqb_eq. split; [eauto|]. by intros (res' & [= <-] & ?).
    + intros res' [= <-]. split; [done|]. split.
      * intros Hne. by apply Z.eqb_neq in Hne as ->.
      * by intros ->.
  - split; [|split; [|apply Number_toString_inj]].
    + split; [discriminate|]. by intros (res & [=] & _).
    + intros res [=].
Qed.

Lemma Math_round_fifth (total : Z) :
  Math_round (inject_Z total / inject_Z 5)%Q = (2 * total + 5) / 10.
Proof. unfold Math_round. cbn. f_equal; lia. Qed.

(** C8. The average [main] reports is taken over the elapsed times of
    the five probes, each the difference of the probe's two readings of
    the clock; it is [Math.round] of their sum divided by five, which is
    the integer nearest to the mean (the distance is below one half, so
    there is one only). For 10, 20, 30, 40 and 50 ms it is 30. *)
Theorem average_response_time (h : Host) (env : Env) (run : Run) :
  fst (main h env) = Normal run ->
  let times := ms <$> Object_values (report run) in
  let total := foldl Z.add 0 times in
  times = (fun p => nowMs_end h p - nowMs_start h p)
            <$> [OpenAI; Supabase; Stripe; SendGrid; SiteUrl]
  /\ avgTime run = Math_round (inject_Z total / inject_Z 5)%Q
  /\ 2 * Z.abs (5 * avgTime run - total) < 5
  /\ (times = [10; 20; 30; 40; 50] -> avgTime run = 30).
Proof.
  intros Hmain.
  destruct (resolveEnv h env) as [[[]|e] env'] eqn:R;
    [|rewrite (main_throws h env e env' R) in Hmain; discriminate].
  destruct (main_resolved h env env' R)
    as (r0 & r1 & r2 & r3 & r4 & run' & H0 & H1 & H2 & H3 & H4 & E & _ & Hrep & Havg & _).
  rewrite E in Hmain. injection Hmain as ->.
  rewrite Hrep, Havg. cbn [Object_values fmap list_fmap snd foldl].
  rewrite Math_round_fifth.
  split; [|split; [|split]].
  - rewrite (proj1 (probe_elapsed h env' r0) H0).
    rewrite (proj1 (proj2 (probe_elapsed h env' r1)) H1).
    rewrite (proj1 (proj2 (proj2 (probe_elapsed h env' r2))) H2).
    rewrite (proj1 (proj2 (proj2 (proj2 (probe_elapsed h env' r3)))) H3).
    rewrite (proj2 (proj2 (proj2 (proj2 (probe_elapsed h env' r4)))) H4).
    reflexivity.
  - rewrite Math_round_fifth. f_equal; lia.
  - pose proof (Z.div_mod (2 * (ms r0 + ms r1 + ms r2 + ms r3 + ms r4) + 5) 10).
    pose proof (Z.mod_pos_bound (2 * (ms r0 + ms r1 + ms r2 + ms r3 + ms r4) + 5) 10).
    lia.
  - intros [= -> -> -> -> ->]. reflexivity.
Qed.

Lemma average_response_time_witness :
  exists run,
    fst (main (responding 200) (all_set (lit "x"))) = Normal run
    /\ avgTime run = 30.
Proof.
  destruct (main (responding 200) (all_set (lit "x"))) as [[run|e] env'] eqn:E.
  - exists run. split; [reflexivity|].
    apply (average_response_time (responding 200) (all_set (lit "x")) run).
    + rewrite E. reflexivity.
    + assert (fst (main (responding 200) (all_set (lit "x"))) = Normal run) as F
        by (rewrite E; reflexivity).
      vm_compute in F. injection F as <-. reflexivity.
  - assert (fst (main (responding 200) (all_set (lit "x"))) = Throw e) as F
      by (rewrite E; reflexivity).
    vm_compute in F. discriminate F.
Defined.

Lemma present_iff (env : Env) (key : jstr) :
  present env key = true <->
  exists v, env !! key = Some v
            /\ exists c, c ∈ v /\ Str.isWhiteSpace c = false.
Proof.
  unfold present. destruct (env !! key) as [v|]; cbn [truthy].
  - rewrite andb_true_iff, !nonEmpty_true, trim_nil, not_blank.
    split.
    + intros [_ Hc]. eauto.
    + intros (v' & [= <-] & c & Hc & Hws). split; [|eauto].
      intros ->. inversion Hc.
  - split; [discriminate|]. by intros (v & [=] & _).
Qed.

(** C9. The presence flag of a key is true exactly when the key has a
    value and the value holds a character that is not white space. So a
    required variable whose final value is only white space is listed in
    [missingKeys] with the flag false, and the process exits with
    code 1. *)
Theorem whitespace_only_is_missing (h : Host) (env : Env) (key v : jstr) :
  (forall env key,
     present env key = true <->
     exists v, env !! key = Some v
               /\ exists c, c ∈ v /\ Str.isWhiteSpace c = false)
  /\ (key ∈ REQUIRED_VARS ->
      snd (main h env) !! key = Some v ->
      blank v ->
      prod_check h env = 1
      /\ forall run,
           fst (main h env) = Normal run ->
           (key, false) ∈ envStatus run /\ key ∈ missingKeys run).
Proof.
  split; [apply present_iff|].
  intros Hkey Hv Hblank. rewrite main_env in Hv.
  assert (present (snd (resolveEnv h env)) key = false) as Hmiss.
  { apply not_true_is_false. rewrite present_iff.
    intros (v' & Hv' & Hc). rewrite Hv in Hv'. injection Hv' as <-.
    by apply not_blank in Hc. }
  split.
  - destruct (prod_check_zero_iff h env) as [[Hc|Hc] Hzero]; [|done].
    apply Hzero in Hc
      as (env' & r0 & r1 & r2 & r3 & r4 & R & _ & _ & _ & _ & _ & Henv & _).
    rewrite R in Hmiss. cbn [snd] in Hmiss.
    specialize (Henv key Hkey). congruence.
  - intros run Hrun.
    destruct (resolveEnv h env) as [[[]|e] env'] eqn:R;
      [|rewrite (main_throws h env e env' R) in Hrun; discriminate].
    destruct (main_resolved h env env' R)
      as (r0 & r1 & r2 & r3 & r4 & run' & _ & _ & _ & _ & _ & E & Hstatus & _ & _ & Hmk & _).
    rewrite E in Hrun. injection Hrun as ->. cbn [snd] in Hmiss.
    rewrite Hstatus, Hmk. split.
    + apply list_elem_of_fmap. exists key. by rewrite Hmiss.
    + apply list_elem_of_In, filter_In. rewrite Hmiss.
      split; [by apply list_elem_of_In | done].
Qed.

Lemma whitespace_only_is_missing_witness :
  prod_check (responding 200) (<[ SITE_URL := lit "   " ]> (all_set (lit "x"))) = 1
  /\ prod_check (responding 200) (all_set (lit "x")) = 0.
Proof.
  split; [|reflexivity].
  apply (proj2 (whitespace_only_is_missing (responding 200)
                  (<[ SITE_URL := lit "   " ]> (all_set (lit "x")))
                  SITE_URL (lit "   "))).
  - apply (bool_decide_unpack _). vm_compute. exact I.
  - reflexivity.
  - repeat constructor.
Defined.

(** * Further properties of the script *)

(** ** The hosting CLI source, in detail *)

Section NetlifyDetails.

Context (h : Host).

(** What the loop of [loadEnvFromNetlify] has written to a key. *)
Let written (env env' : Env) (k : jstr) : Prop :=
  k ∈ REQUIRED_VARS
  /\ truthy (env !! k) = false
  /\ exists out,
       execSync h (lit "netlify env:get " ++ k) = Normal out
       /\ usableValue (Str.trim out) = true
       /\ env' !! k = Some (Str.trim out).

Lemma fetchVar_cases n varName env :
  fetchVar h n varName env = (Normal n, env)
  \/ (truthy (env !! varName) = false
      /\ exists out,
           execSync h (lit "netlify env:get " ++ varName) = Normal out
           /\ usableValue (Str.trim out) = true
           /\ fetchVar h n varName env
              = (Normal (n + 1), <[varName := Str.trim out]> env)).
Proof.
  unfold fetchVar. unfold_js.
  change (is_truthy (property_of env varName)) with (is_set env varName).
  destruct (is_set env varName) eqn:Hset; cbn [negb]; [by left|].
  apply is_set_false in Hset.
  destruct (execSync h (lit "netlify env:get " ++ varName)) as [out|e];
    [|by left].
  destruct (usableValue (Str.trim out)) eqn:Hok; [|by left].
  right. split; [done|]. by exists out.
Qed.

Lemma fetch_loop_frame vars n env :
  (forall k, k ∈ vars -> k ∈ REQUIRED_VARS) ->
  exists n' env',
    for_of vars (fetchVar h) n env = (Normal n', env')
    /\ n <= n'
    /\ (n' = n -> env' = env)
    /\ (n < n' -> exists k, written env env' k)
    /\ (forall k, env' !! k = env !! k \/ written env env' k).
Proof.
  revert n env. induction vars as [|x vars IH]; intros n env Hvars.
  - exists n, env. cbn. split; [done|]. split; [lia|]. split; [done|].
    split; [lia | by left].
  - assert (x ∈ REQUIRED_VARS) as Hx by (apply Hvars; by left).
    assert (forall k, k ∈ vars -> k ∈ REQUIRED_VARS) as Hrest
      by (intros; apply Hvars; by right).
    cbn [for_of]. unfold bind.
    destruct (fetchVar_cases n x env) as [->|(Hunset & out & Hout & Hok & ->)].
    + destruct (IH n env Hrest) as (n' & env' & -> & Hle & Hsame & Hnew & Hall).
      by exists n', env'.
    + set (env1 := <[x := Str.trim out]> env).
      destruct (IH (n + 1) env1 Hrest) as (n' & env' & -> & Hle & _ & _ & Hall).
      assert (env' !! x = Some (Str.trim out)) as Hkeep.
      { destruct (Hall x) as [->|(_ & Hf & _)].
        - unfold env1. by rewrite lookup_insert_eq.
        - unfold env1 in Hf. rewrite lookup_insert_eq in Hf. cbn in Hf.
          apply usableValue_nonEmpty in Hok. congruence. }
      assert (written env env' x) as Hwx by (split; [done|]; split; [done|]; eauto).
      exists n', env'. split; [done|]. split; [lia|]. split; [lia|].
      split; [eauto|].
      intros k. destruct (decide (k = x)) as [->|Hne]; [by right|].
      destruct (Hall k) as [->|(Hk & Hf & out' & ? & ? & ?)].
      * left. unfold env1. by rewrite lookup_insert_ne.
      * right. unfold env1 in Hf. rewrite lookup_insert_ne in Hf by done.
        split; [done|]. split; [done|]. eauto.
Qed.

Lemma loadEnvFromNetlify_frame env :
  exists loaded env',
    loadEnvFromNetlify h env = (Normal loaded, env')
    /\ (loaded = false -> env' = env)
    /\ (loaded = true -> exists k, written env env' k)
    /\ (forall k, env' !! k = env !! k \/ written env env' k).
Proof.
  unfold loadEnvFromNetlify, try_catch, bind.
  destruct (checkLinked_total h env) as (linked & ->).
  destruct linked; cbn [negb].
  - destruct (fetch_loop_frame REQUIRED_VARS 0 env) as (n & env' & -> & Hle & Hsame & Hnew & Hall);
      [done|].
    exists (0 <? n), env'. unfold ret. split; [done|]. split; [|split; [|done]].
    + intros Hn%Z.ltb_ge. apply Hsame. lia.
    + intros Hn%Z.ltb_lt. auto.
  - exists false, env. unfold ret. split; [done|]. split; [done|].
    split; [discriminate | by left].
Qed.

End NetlifyDetails.

(** ** Extras: the hosting CLI source *)

(** X1. When the commands print text without NUL, the CLI source
    changes a key only if the key is a required variable that was not
    set, and then to what [netlify env:get] printed for it, trimmed: a
    text that is not empty and holds neither [Error] nor [not found]. *)
Theorem netlify_writes_usable_values (h : Host) (env : Env) (k : jstr) :
  text_commands h ->
  snd (loadEnvFromNetlify h env) !! k <> env !! k ->
  k ∈ REQUIRED_VARS
  /\ truthy (env !! k) = false
  /\ exists out,
       execSync h (lit "netlify env:get " ++ k) = Normal out
       /\ snd (loadEnvFromNetlify h env) !! k = Some (Str.trim out)
       /\ Str.trim out <> []
       /\ Str.includes (lit "Error") (Str.trim out) = false
       /\ Str.includes (lit "not found") (Str.trim out) = false.
Proof.
  destruct (loadEnvFromNetlify_frame h env) as (loaded & env' & -> & _ & _ & Hall).
  cbn [snd]. intros _ Hchanged.
  destruct (Hall k) as [?|(Hk & Hunset & out & Hout & Hok & Hv)]; [done|].
  split; [done|]. split; [done|]. exists out.
  unfold usableValue in Hok.
  rewrite !andb_true_iff, !negb_true_iff, nonEmpty_true in Hok.
  tauto.
Qed.

Lemma netlify_writes_usable_values_witness :
  exists out,
    execSync linked (lit "netlify env:get " ++ SITE_URL) = Normal out
    /\ snd (loadEnvFromNetlify linked ∅) !! SITE_URL = Some (Str.trim out).
Proof.
  destruct (netlify_writes_usable_values linked ∅ SITE_URL)
    as (_ & _ & out & Hout & Hv & _); [text_host | discriminate |].
  exists out. split; [exact Hout | exact Hv].
Defined.



(** X3. A value that the CLI prints is dropped when it is empty or holds
    [Error] or [not found] anywhere, and so is a variable whose command
    fails: the key is left as it was. *)
Theorem netlify_drops_error_text (h : Host) (env : Env) (k : jstr) :
  (exists e, execSync h (lit "netlify env:get " ++ k) = Throw e)
  \/ (exists out,
        execSync h (lit "netlify env:get " ++ k) = Normal out
        /\ (Str.trim out = []
            \/ Str.includes (lit "Error") (Str.trim out) = true
            \/ Str.includes (lit "not found") (Str.trim out) = true)) ->
  snd (loadEnvFromNetlify h env) !! k = env !! k.
Proof.
  destruct (loadEnvFromNetlify_frame h env) as (loaded & env' & -> & _ & _ & Hall).
  cbn [snd]. intros Hbad.
  destruct (Hall k) as [?|(_ & _ & out & Hout & Hok & _)]; [done|].
  exfalso. unfold usableValue in Hok.
  rewrite !andb_true_iff, !negb_true_iff, nonEmpty_true in Hok.
  destruct Hbad as [[e He]|(out' & Hout' & Hbad)]; [congruence|].
  assert (out' = out) as -> by congruence.
  destruct Hbad as [?|[?|?]]; [tauto | |]; destruct Hok as [[[_ ?] ?] _]; congruence.
Qed.

Lemma netlify_drops_error_text_witness :
  snd (loadEnvFromNetlify cli_without_values ∅) !! SITE_URL = None.
Proof.
  rewrite (netlify_drops_error_text cli_without_values ∅ SITE_URL);
    [reflexivity|].
  right. exists (lit "Error: Environment variable not found").
  split; [reflexivity|]. right. left. reflexivity.
Defined.

(** X4. Once the CLI source has loaded a variable, [.env] plays no part:
    the resolution completes with the aliases mapped over what the CLI
    left, whether [.env] exists or not and whether it can be read or
    not. *)
Theorem file_ignored_after_cli (h : Host) (env : Env) :
  fst (loadEnvFromNetlify h env) = Normal true ->
  resolveEnv h env
  = (Normal tt, snd (mapEnvVars (snd (loadEnvFromNetlify h env))))
  /\ forall read, resolveEnv (with_file h read) env = resolveEnv h env.
Proof.
  intros Hloaded.
  assert (forall h', loadEnvFromNetlify h' env = loadEnvFromNetlify h env ->
            resolveEnv h' env
            = (Normal tt, snd (mapEnvVars (snd (loadEnvFromNetlify h env)))))
    as Hres.
  { intros h' E. unfold resolveEnv, bind. rewrite E.
    destruct (loadEnvFromNetlify h env) as [c env1]. cbn in Hloaded. subst c.
    unfold ret. cbv beta iota. cbn [snd]. by rewrite !mapEnvVars_eq. }
  split; [by apply Hres|].
  intros read. rewrite (Hres h eq_refl). apply Hres. reflexivity.
Qed.

Lemma file_ignored_after_cli_witness :
  resolveEnv (with_file linked (Throw EACCES)) ∅ = resolveEnv linked ∅
  /\ fst (resolveEnv linked ∅) = Normal tt.
Proof.
  destruct (file_ignored_after_cli linked ∅) as [Hres Hfile]; [reflexivity|].
  split; [apply Hfile | rewrite Hres; reflexivity].
Defined.

(** X5. Auto-linking is tried only when the status command (or the
    parsing of its output) fails. When the status is read and reports no
    site id, the CLI source stops there and contributes nothing, whatever
    the link commands would do. *)
Theorem no_autolink_after_status (h : Host) (env : Env)
    (statusOutput : jstr) (status : NetlifyStatus) :
  execSync h (lit "netlify status --json") = Normal statusOutput ->
  JSON_parse_status h statusOutput = Normal status ->
  truthy (siteInfo status ≫= siteInfo_id) = false ->
  loadEnvFromNetlify h env = (Normal false, env).
Proof.
  intros Hexec Hparse Hid.
  unfold loadEnvFromNetlify, checkLinked. unfold_js.
  by rewrite Hexec, Hparse, Hid.
Qed.

Lemma no_autolink_after_status_witness :
  loadEnvFromNetlify not_linked ∅ = (Normal false, ∅)
  /\ execSync not_linked (lit "netlify link --git") = Normal (lit "value").
Proof.
  split; [|reflexivity].
  apply (no_autolink_after_status not_linked ∅ (lit "value") unlinked_status);
    reflexivity.
Defined.

(** X6. Linking by site name needs exactly one candidate. When the
    status command and [netlify link --git] fail and the number of listed
    sites whose name holds [audit] or [response] is not one, no site is
    linked and the CLI source contributes nothing. *)
Theorem name_link_needs_one_candidate (h : Host) (env : Env)
    (e1 e2 : JsError) (gitRemote sitesOutput : jstr) (sites : list Site) :
  execSync h (lit "netlify status --json") = Throw e1 ->
  execSync h (lit "git remote get-url origin") = Normal gitRemote ->
  execSync h (lit "netlify link --git") = Throw e2 ->
  execSync h (lit "netlify sites:list --json") = Normal sitesOutput ->
  JSON_parse_sites h sitesOutput = Normal (SitesArray sites) ->
  length (List.filter (possibleSite h) sites) <> 1%nat ->
  loadEnvFromNetlify h env = (Normal false, env).
Proof.
  intros Hstatus Hgit Hlink Hlist Hparse Hcount.
  unfold loadEnvFromNetlify, checkLinked, autoLink. unfold_js.
  rewrite Hstatus, Hgit, Hlink, Hlist, Hparse.
  by destruct (List.filter (possibleSite h) sites) as [|s1 [|s2 rest]].
Qed.

Lemma name_link_needs_one_candidate_witness :
  loadEnvFromNetlify two_candidates ∅ = (Normal false, ∅)
  /\ execSync two_candidates (lit "netlify env:get SITE_URL")
     = Normal (lit "value").
Proof.
  split; [|reflexivity].
  apply (name_link_needs_one_candidate two_candidates ∅ ENOENT ENOENT
           (lit "value") (lit "value")
           [ {| site_name := Some (lit "audit-staging"); site_id := lit "s1" |};
             {| site_name := Some (lit "auditresponse"); site_id := lit "s2" |};
             {| site_name := Some (lit "blog"); site_id := lit "s3" |} ]);
    try reflexivity.
  vm_compute. discriminate.
Defined.

(** ** The fallback file, in detail *)

Lemma touches_refl P env : touches P env env.
Proof. intros k. by left. Qed.

Lemma touches_trans P env1 env2 env3 :
  touches P env1 env2 -> touches P env2 env3 -> touches P env1 env3.
Proof.
  intros H12 H23 k. destruct (H23 k) as [E23|?]; [|by right].
  rewrite E23. apply H12.
Qed.

Lemma trimStart_head s c t :
  Str.trimStart s = c :: t -> Str.isWhiteSpace c = false.
Proof.
  induction s as [|d s IH]; cbn; [discriminate|].
  destruct (Str.isWhiteSpace d) eqn:E; [done|]. by intros [= <- _].
Qed.

Lemma trimStart_keeps_last s c :
  Str.isWhiteSpace c = false ->
  exists u, Str.trimStart (s ++ [c]) = u ++ [c].
Proof.
  intros Hc. induction s as [|d s IH]; cbn.
  - rewrite Hc. by exists [].
  - destruct (Str.isWhiteSpace d); [done|]. by exists (d :: s).
Qed.

(** What [trim] returns does not start with white space. *)
Lemma trim_head s c t : Str.trim s = c :: t -> Str.isWhiteSpace c = false.
Proof.
  unfold Str.trim, Str.trimEnd.
  destruct (Str.trimStart s) as [|d u] eqn:E; [discriminate|].
  pose proof (trimStart_head s d u E) as Hd.
  rewrite reverse_cons.
  destruct (trimStart_keeps_last (reverse u) d Hd) as [w ->].
  rewrite reverse_app. cbn. by intros [= <- _].
Qed.

Lemma trimStart_blank_app ws s : blank ws -> Str.trimStart (ws ++ s) = Str.trimStart s.
Proof.
  unfold blank. induction 1 as [|c ws Hc _ IH]; cbn; [done|]. by rewrite Hc.
Qed.

Lemma trimStart_app_not_blank s t :
  ~ blank s -> Str.trimStart (s ++ t) = Str.trimStart s ++ t.
Proof.
  unfold blank. induction s as [|c s IH]; cbn; intros Hs.
  - destruct Hs. constructor.
  - destruct (Str.isWhiteSpace c) eqn:E; [|done].
    apply IH. intros Hs'. apply Hs. by constructor.
Qed.

(** White space around a text does not change what [trim] returns. *)
Lemma trim_blank_around ws1 ws2 s :
  blank ws1 -> blank ws2 -> Str.trim (ws1 ++ s ++ ws2) = Str.trim s.
Proof.
  intros H1 H2. unfold Str.trim. rewrite trimStart_blank_app by done.
  destruct (decide (blank s)) as [Hs|Hs].
  - assert (blank (s ++ ws2)) as Hall by (by apply Forall_app).
    apply trimStart_nil in Hs, Hall. by rewrite Hs, Hall.
  - rewrite trimStart_app_not_blank by done.
    unfold Str.trimEnd. rewrite reverse_app.
    rewrite trimStart_blank_app; [done|]. by apply blank_reverse.
Qed.

Lemma lineEnv_trim line1 line2 env :
  Str.trim line1 = Str.trim line2 -> lineEnv line1 env = lineEnv line2 env.
Proof. intros E. unfold lineEnv, loadLine. by rewrite E. Qed.

(** A line either never assigns, or assigns one fixed entry to its key
    whenever the key is not set. *)
Lemma line_shape line :
  (forall env, lineEnv line env = env)
  \/ exists key value,
       file_key key /\ value <> []
       /\ forall env,
            lineEnv line env
            = if is_set env key then env else <[key := value]> env.
Proof.
  destruct (decide (blank line)) as [Hb|Hb];
    [left; intros; apply lineEnv_skip; tauto|].
  destruct (Str.startsWith (lit "#") (Str.trim line)) eqn:Hhash.
  { left. intros. apply lineEnv_skip. right. left.
    rewrite lit_hash in Hhash. by apply startsWith_one. }
  destruct (decide (61%N ∈ Str.trim line)) as [Heq|Heq];
    [|left; intros; apply lineEnv_skip; tauto].
  destruct (first_occurrence _ _ Heq) as (key & raw & Ht & Hkey).
  destruct (Str.nonEmpty key) eqn:Hk;
    [|left; intros; rewrite (lineEnv_assign line env key raw) by done;
      by rewrite Hk].
  destruct (Str.nonEmpty (Str.replaceEdgeQuotes raw)) eqn:Hv;
    [|left; intros; rewrite (lineEnv_assign line env key raw) by done;
      by rewrite Hk, Hv].
  right. exists key, (Str.replaceEdgeQuotes raw).
  split; [|split; [by apply nonEmpty_true|]].
  - split; [by apply nonEmpty_true|]. split; [done|].
    intros c t ->. split.
    + by apply (trim_head line c (t ++ 61%N :: raw)).
    + intros ->. rewrite Ht, lit_hash in Hhash. cbn in Hhash.
      discriminate.
  - intros env. rewrite (lineEnv_assign line env key raw) by done.
    rewrite Hk, Hv. cbn [andb]. by destruct (is_set env key).
Qed.

Lemma lineEnv_touches line env : touches file_key env (lineEnv line env).
Proof.
  destruct (line_shape line) as [->|(key & value & Hkey & Hv & ->)];
    [apply touches_refl|].
  destruct (is_set env key) eqn:Hset; [apply touches_refl|].
  intros k. destruct (decide (key = k)) as [<-|Hne].
  - right. split; [done|]. rewrite lookup_insert_eq. cbn.
    by apply nonEmpty_true.
  - left. by rewrite lookup_insert_ne.
Qed.

Lemma foldl_lineEnv_touches lines env :
  touches file_key env (foldl (fun env line => lineEnv line env) env lines).
Proof.
  revert env. induction lines as [|line lines IH]; intros env;
    [apply touches_refl|].
  cbn [foldl]. eauto using touches_trans, lineEnv_touches.
Qed.

(** After the lines are loaded, loading any of them again does nothing. *)
Lemma foldl_lineEnv_settled lines env line :
  line ∈ lines ->
  lineEnv line (foldl (fun env line => lineEnv line env) env lines)
  = foldl (fun env line => lineEnv line env) env lines.
Proof.
  revert env. induction lines as [|l lines IH]; intros env Hin;
    [by inversion Hin|].
  cbn [foldl]. apply elem_of_cons in Hin as [->|Hin]; [|by apply IH].
  destruct (line_shape l) as [Hskip|(key & value & _ & Hv & Hassign)];
    [apply Hskip|].
  rewrite (Hassign (foldl _ _ _)).
  assert (is_set (lineEnv l env) key = true) as Hset.
  { rewrite Hassign. destruct (is_set env key) eqn:E; [done|].
    apply is_set_truthy. rewrite lookup_insert_eq. cbn.
    by apply nonEmpty_true. }
  pose proof (foldl_lineEnv_extends lines (lineEnv l env)) as X.
  by rewrite (extends_is_set _ _ key X Hset).
Qed.

Lemma foldl_lineEnv_fixed lines env :
  (forall line, line ∈ lines -> lineEnv line env = env) ->
  foldl (fun env line => lineEnv line env) env lines = env.
Proof.
  induction lines as [|l lines IH]; intros Hfix; [done|].
  cbn [foldl]. rewrite (Hfix l) by (by left).
  apply IH. intros line Hin. apply Hfix. by right.
Qed.

Lemma split_app_sep sep a b :
  Str.split sep (a ++ sep :: b) = Str.split sep a ++ Str.split sep b.
Proof.
  induction a as [|c a IH]; cbn.
  - by rewrite N.eqb_refl.
  - rewrite IH. destruct (c =? sep)%N; [done|].
    by destruct (split_cons sep a) as (w & ws & ->).
Qed.

Lemma loadEnvFromFile_content (h : Host) (envContent : jstr) (env : Env) :
  loadEnvFromFile (with_file h (Normal envContent)) env
  = (Normal tt,
     foldl (fun env line => lineEnv line env) env (Str.split 10 envContent)).
Proof. by apply loadEnvFromFile_readable. Qed.

(** ** Extras: the fallback file *)

(** X7. Loading a file made of two parts, one after the other, is loading
    the first part and then the second; so of two lines that define the
    same key the earlier one wins. *)
Theorem file_loads_in_order (h : Host) (part1 part2 : jstr) (env : Env) :
  snd (loadEnvFromFile (with_file h (Normal (part1 ++ 10%N :: part2))) env)
  = snd (loadEnvFromFile (with_file h (Normal part2))
           (snd (loadEnvFromFile (with_file h (Normal part1)) env)))
  /\ forall key value,
       snd (loadEnvFromFile (with_file h (Normal part1)) env) !! key = Some value ->
       value <> [] ->
       snd (loadEnvFromFile (with_file h (Normal (part1 ++ 10%N :: part2))) env)
         !! key = Some value.
Proof.
  rewrite !loadEnvFromFile_content. cbn [snd].
  rewrite split_app_sep, foldl_app. split; [done|].
  intros key value Hk Hv.
  eapply set_keeps; [apply foldl_lineEnv_extends|done..].
Qed.

Lemma file_loads_in_order_witness :
  snd (loadEnvFromFile
         (with_file offline (Normal (lit "KEY=first" ++ 10%N :: lit "KEY=second")))
         ∅) !! lit "KEY" = Some (lit "first").
Proof.
  apply (proj2 (file_loads_in_order offline (lit "KEY=first") (lit "KEY=second") ∅)).
  - reflexivity.
  - discriminate.
Defined.

(** X8. Loading [.env] a second time changes nothing: it ends the same
    way (also when the read fails) and leaves [process.env] as the first
    load left it. *)
Theorem file_load_idempotent (h : Host) (env : Env) :
  loadEnvFromFile h (snd (loadEnvFromFile h env)) = loadEnvFromFile h env.
Proof.
  destruct (existsSync h (lit ".env")) eqn:Hex.
  - destruct (readFileSync h (lit ".env")) as [envContent|e] eqn:Hread.
    + rewrite !(loadEnvFromFile_readable h _ envContent) by done.
      cbn [snd]. f_equal. apply foldl_lineEnv_fixed.
      intros line Hin. by apply foldl_lineEnv_settled.
    + by rewrite !(loadEnvFromFile_unreadable h _ e).
  - by rewrite !loadEnvFromFile_missing.
Qed.

(** X9. White space before and after a line is ignored, a carriage
    return at the end of the line included: the line is read as if it
    were not there. *)
Theorem line_whitespace_ignored (before after line : jstr) (env : Env) :
  blank before -> blank after ->
  lineEnv (before ++ line ++ after) env = lineEnv line env
  /\ lineEnv (line ++ [13%N]) env = lineEnv line env.
Proof.
  intros Hb Ha. split.
  - apply lineEnv_trim. by apply trim_blank_around.
  - apply lineEnv_trim. apply (trim_blank_around [] [13%N] line);
      by repeat constructor.
Qed.

Lemma line_whitespace_ignored_witness :
  lineEnv ([9%N; 32%N] ++ lit "KEY=value" ++ [32%N; 13%N]) ∅
  = lineEnv (lit "KEY=value") ∅.
Proof.
  apply (line_whitespace_ignored [9%N; 32%N] [32%N; 13%N]); by repeat constructor.
Defined.

(** X10. When [.env] holds text without NUL, a key that loading it has
    changed is a key the file can define (not empty, without [=], not
    starting with white space or [#]); it was not set and it is set
    afterwards. Every other key is as before. *)
Theorem file_defines_proper_keys (h : Host) (env : Env) (key : jstr) :
  text_files h ->
  snd (loadEnvFromFile h env) !! key <> env !! key ->
  key <> []
  /\ (61%N ∉ key)
  /\ (forall c t, key = c :: t -> Str.isWhiteSpace c = false /\ c <> 35%N)
  /\ truthy (env !! key) = false
  /\ truthy (snd (loadEnvFromFile h env) !! key) = true.
Proof.
  intros _ Hchanged.
  assert (touches file_key env (snd (loadEnvFromFile h env))) as Htouch.
  { destruct (existsSync h (lit ".env")) eqn:Hex.
    - destruct (readFileSync h (lit ".env")) as [envContent|e] eqn:Hread.
      + rewrite (loadEnvFromFile_readable h _ envContent) by done.
        apply foldl_lineEnv_touches.
      + rewrite (loadEnvFromFile_unreadable h _ e) by done. apply touches_refl.
    - rewrite loadEnvFromFile_missing by done. apply touches_refl. }
  destruct (Htouch key) as [?|[(Hne & Heq & Hhead) Hset]]; [done|].
  repeat (split; [done|]). split; [|done].
  destruct (loadEnvFromFile_extends h env key) as [?|[? _]]; done.
Qed.

Lemma file_defines_proper_keys_witness :
  truthy (snd (loadEnvFromFile (with_file offline (Normal sample_file)) ∅)
            !! lit "KEY") = true.
Proof.
  apply (file_defines_proper_keys (with_file offline (Normal sample_file)) ∅
           (lit "KEY")).
  - text_host.
  - discriminate.
Defined.

(** ** The aliases, in detail *)

Lemma aliasEnv_other alias canonical env k :
  k <> canonical -> aliasEnv alias canonical env !! k = env !! k.
Proof.
  intros Hk. unfold aliasEnv. destruct (_ && _); [|done].
  by rewrite lookup_insert_ne.
Qed.

Lemma aliasEnv_settled alias canonical env :
  truthy (aliasEnv alias canonical env !! alias) = true ->
  truthy (aliasEnv alias canonical env !! canonical) = true.
Proof.
  unfold aliasEnv.
  destruct (truthy (env !! alias)) eqn:Ha, (truthy (env !! canonical)) eqn:Hc;
    cbn [andb negb]; try congruence.
  intros _. rewrite lookup_insert_eq. by destruct (env !! alias).
Qed.

Lemma aliasEnv_fixed alias canonical env :
  (truthy (env !! alias) = true -> truthy (env !! canonical) = true) ->
  aliasEnv alias canonical env = env.
Proof.
  intros H. unfold aliasEnv.
  destruct (truthy (env !! alias)); [|done]. by rewrite H.
Qed.

Lemma mapEnvVars_settled env alias canonical :
  (alias, canonical) ∈
    [ (STRIPE_PUBLIC_KEY, STRIPE_PUBLISHABLE_KEY);
      (STRIPE_PRICE_ID, STRIPE_PRICE_RESPONSE) ] ->
  truthy (snd (mapEnvVars env) !! alias) = true ->
  truthy (snd (mapEnvVars env) !! canonical) = true.
Proof.
  rewrite mapEnvVars_eq. cbn [snd]. intros Hpair.
  assert (STRIPE_PUBLIC_KEY <> STRIPE_PRICE_RESPONSE) as N1 by distinct_keys.
  assert (STRIPE_PUBLISHABLE_KEY <> STRIPE_PRICE_RESPONSE) as N2 by distinct_keys.
  apply elem_of_cons in Hpair as [[= -> ->]|Hpair];
    [|apply elem_of_cons in Hpair as [[= -> ->]|Hpair]; [|by inversion Hpair]].
  - rewrite !(aliasEnv_other STRIPE_PRICE_ID) by done. apply aliasEnv_settled.
  - apply aliasEnv_settled.
Qed.

(** ** Extras: the aliases *)

(** X11. [mapEnvVars] changes nothing but the two canonical names: the
    aliases themselves and every other variable keep their values. *)
Theorem aliases_only_fill_canonical (env : Env) (k : jstr) :
  k <> STRIPE_PUBLISHABLE_KEY -> k <> STRIPE_PRICE_RESPONSE ->
  snd (mapEnvVars env) !! k = env !! k.
Proof.
  intros H1 H2. rewrite mapEnvVars_eq. cbn [snd].
  by rewrite !aliasEnv_other.
Qed.

Lemma aliases_only_fill_canonical_witness :
  snd (mapEnvVars {[ STRIPE_PUBLIC_KEY := lit "pk_live_1" ]}) !! STRIPE_PUBLIC_KEY
  = Some (lit "pk_live_1").
Proof.
  rewrite (aliases_only_fill_canonical _ STRIPE_PUBLIC_KEY);
    [reflexivity | discriminate | discriminate].
Defined.

(** X12. Mapping the aliases a second time changes nothing. *)
Theorem alias_mapping_idempotent (env : Env) :
  mapEnvVars (snd (mapEnvVars env)) = mapEnvVars env.
Proof.
  pose proof (mapEnvVars_settled env) as Hsettled.
  rewrite (mapEnvVars_eq env) in *. cbn [snd] in *.
  set (env' := aliasEnv STRIPE_PRICE_ID STRIPE_PRICE_RESPONSE _) in *.
  rewrite mapEnvVars_eq.
  rewrite (aliasEnv_fixed STRIPE_PUBLIC_KEY STRIPE_PUBLISHABLE_KEY env')
    by (apply Hsettled; repeat constructor).
  by rewrite (aliasEnv_fixed STRIPE_PRICE_ID STRIPE_PRICE_RESPONSE env')
    by (apply Hsettled; repeat constructor).
Qed.

(** X13. When the resolution completes, the environment the probes read
    has the canonical name set whenever its alias is set, for both alias
    pairs and whichever source the alias came from. *)
Theorem resolved_aliases_are_mapped (h : Host) (env : Env)
    (alias canonical : jstr) :
  (alias, canonical) ∈
    [ (STRIPE_PUBLIC_KEY, STRIPE_PUBLISHABLE_KEY);
      (STRIPE_PRICE_ID, STRIPE_PRICE_RESPONSE) ] ->
  fst (resolveEnv h env) = Normal tt ->
  truthy (snd (main h env) !! alias) = true ->
  truthy (snd (main h env) !! canonical) = true.
Proof.
  intros Hpair Hdone. rewrite main_env. revert Hdone.
  unfold resolveEnv, bind.
  destruct (loadEnvFromNetlify h env) as [[loaded|e1] env1]; [|discriminate].
  destruct ((if loaded then ret tt else loadEnvFromFile h) env1)
    as [[[]|e2] env2]; [|discriminate].
  intros _. by apply mapEnvVars_settled.
Qed.

Lemma resolved_aliases_are_mapped_witness :
  truthy (snd (main (with_file offline (Normal (lit "STRIPE_PRICE_ID=price_1"))) ∅)
            !! STRIPE_PRICE_RESPONSE) = true.
Proof.
  apply (resolved_aliases_are_mapped _ _ STRIPE_PRICE_ID STRIPE_PRICE_RESPONSE).
  - right. left.
  - reflexivity.
  - reflexivity.
Defined.

(** ** The probes, case by case *)

Section ProbeDetails.

Context (h : Host).

Lemma checkOpenAI_eq env :
  checkOpenAI h env =
  (Normal
     match chat_completions_create h (env !! OPENAI_API_KEY) with
     | Normal res =>
         let text :=
           default [] (cs ← choices res; c ← head cs; m ← choice_message c; content m) in
         {| ok := JBool (Str.nonEmpty text && (0 <? length text)%nat);
            ms := nowMs_end h OpenAI - nowMs_start h OpenAI;
            detail := if Str.nonEmpty text && (0 <? length text)%nat
                      then lit "OK" else lit "Empty response" |}
     | Throw e =>
         {| ok := JBool false;
            ms := nowMs_end h OpenAI - nowMs_start h OpenAI;
            detail := errorDetail e |}
     end, env).
Proof.
  unfold checkOpenAI. unfold_js. by destruct (chat_completions_create h _).
Qed.

Lemma checkSupabase_eq env :
  checkSupabase h env =
  (Normal
     match system_check_insert h (env !! SUPABASE_URL)
             (env !! SUPABASE_SERVICE_ROLE_KEY) with
     | Normal res =>
         match error res with
         | Some err =>
             {| ok := JBool false;
                ms := nowMs_end h Supabase - nowMs_start h Supabase;
                detail := lit "Insert failed: " ++ error_message err |}
         | None =>
             {| ok := JBool true;
                ms := nowMs_end h Supabase - nowMs_start h Supabase;
                detail := lit "Inserted dummy record" |}
         end
     | Throw e =>
         {| ok := JBool false;
            ms := nowMs_end h Supabase - nowMs_start h Supabase;
            detail := errorDetail e |}
     end, env).
Proof.
  unfold checkSupabase. unfold_js.
  by destruct (system_check_insert h _ _) as [[[err|]]|].
Qed.

Lemma checkSendGrid_eq env :
  checkSendGrid h env =
  (Normal
     match sgMail_client_request h (env !! SENDGRID_API_KEY) with
     | Normal result =>
         match r ← head result; statusCode r with
         | Some n =>
             if n =? 0
             then {| ok := JNumber n;
                     ms := nowMs_end h SendGrid - nowMs_start h SendGrid;
                     detail := lit "Status " ++ Number_toString n |}
             else if n <? 400
             then {| ok := JBool true;
                     ms := nowMs_end h SendGrid - nowMs_start h SendGrid;
                     detail := lit "Email API reachable" |}
             else {| ok := JBool false;
                     ms := nowMs_end h SendGrid - nowMs_start h SendGrid;
                     detail := lit "Status " ++ Number_toString n |}
         | None =>
             {| ok := JUndefined;
                ms := nowMs_end h SendGrid - nowMs_start h SendGrid;
                detail := lit "Status undefined" |}
         end
     | Throw e =>
         {| ok := JBool false;
            ms := nowMs_end h SendGrid - nowMs_start h SendGrid;
            detail := errorDetail e |}
     end, env).
Proof.
  unfold checkSendGrid. unfold_js.
  destruct (sgMail_client_request h _) as [result|e]; [|done].
  destruct (r ← head result; statusCode r) as [n|]; [|done].
  cbn [ToBoolean]. destruct (n =? 0) eqn:E0; cbn [negb ToBoolean].
  - by rewrite E0.
  - by destruct (n <? 400).
Qed.

(** The product the Stripe probe ends up with: the one expanded in the
    price, or the one retrieved by the id the price refers to. *)
Lemma checkStripe_eq env :
  checkStripe h env =
  (Normal
     match
       match prices_retrieve h (env !! STRIPE_SECRET_KEY)
               (env !! STRIPE_PRICE_RESPONSE) with
       | Normal price =>
           match product price with
           | ProductRef id => products_retrieve h (env !! STRIPE_SECRET_KEY) id
           | ProductExpanded p => Normal p
           end
       | Throw e => Throw e
       end
     with
     | Normal (Some p) =>
         if Str.nonEmpty (product_id p)
         then {| ok := JBool true;
                 ms := nowMs_end h Stripe - nowMs_start h Stripe;
                 detail := lit "Product " ++ product_id p |}
         else {| ok := JBool false;
                 ms := nowMs_end h Stripe - nowMs_start h Stripe;
                 detail := lit "No product returned" |}
     | Normal None =>
         {| ok := JBool false;
            ms := nowMs_end h Stripe - nowMs_start h Stripe;
            detail := lit "No product returned" |}
     | Throw e =>
         {| ok := JBool false;
            ms := nowMs_end h Stripe - nowMs_start h Stripe;
            detail := errorDetail e |}
     end, env).
Proof.
  unfold checkStripe. unfold_js.
  destruct (prices_retrieve h _ _) as [[[id|p]]|e]; cbn [product]; [| |done].
  - destruct (products_retrieve h _ id) as [[p|]|e]; [|done..].
    by destruct (Str.nonEmpty (product_id p)).
  - destruct p as [p|]; [|done]. by destruct (Str.nonEmpty (product_id p)).
Qed.

End ProbeDetails.

(** ** Extras: the probes *)

(** X14. The email probe always settles. It passes exactly when the
    request returned and the first element of what it returned has a
    status code that is not 0 and below 400 (a redirect passes here,
    unlike in the site probe). A status of 400 or more fails with the
    status in the detail; without a response or a status code the field
    [ok] is [undefined], not a boolean, and the detail is
    [Status undefined]. *)
Theorem sendgrid_probe_status (h : Host) (env : Env) :
  exists r,
    checkSendGrid h env = (Normal r, env)
    /\ (ToBoolean (ok r) = true <->
        exists response rest n,
          sgMail_client_request h (env !! SENDGRID_API_KEY)
          = Normal (response :: rest)
          /\ statusCode response = Some n /\ n <> 0 /\ n < 400)
    /\ (forall response rest n,
          sgMail_client_request h (env !! SENDGRID_API_KEY)
          = Normal (response :: rest) ->
          statusCode response = Some n ->
          (n <> 0 -> n < 400 ->
           ok r = JBool true /\ detail r = lit "Email API reachable")
          /\ (400 <= n ->
              ok r = JBool false
              /\ detail r = lit "Status " ++ Number_toString n)
          /\ (n = 0 -> ok r = JNumber 0 /\ detail r = lit "Status 0"))
    /\ (forall result,
          sgMail_client_request h (env !! SENDGRID_API_KEY) = Normal result ->
          (r ← head result; statusCode r) = None ->
          ok r = JUndefined /\ detail r = lit "Status undefined").
Proof.
  rewrite checkSendGrid_eq. eexists. split; [reflexivity|].
  destruct (sgMail_client_request h (env !! SENDGRID_API_KEY)) as [result|e].
  - split; [|split].
    + split.
      * destruct result as [|response rest]; [discriminate|]. cbn.
        destruct (statusCode response) as [n|] eqn:Hn; [|discriminate].
        destruct (Z.eqb_spec n 0) as [->|Hne]; [discriminate|].
        destruct (Z.ltb_spec n 400) as [Hlt|Hge]; [|discriminate].
        intros _. by exists response, rest, n.
      * intros (response & rest & n & [= ->] & Hn & Hne & Hlt). cbn.
        rewrite Hn. destruct (Z.eqb_spec n 0); [done|].
        by destruct (Z.ltb_spec n 400); [|lia].
    + intros response rest n [= ->] Hn. cbn. rewrite Hn.
      destruct (Z.eqb_spec n 0) as [->|Hne].
      * split; [done|]. split; [lia|done].
      * destruct (Z.ltb_spec n 400); (split; [|split]); done || lia.
    + intros result' [= <-] ->. done.
  - split; [|split].
    + split; [discriminate|]. by intros (? & ? & ? & [=] & _).
    + by intros ? ? ? [=].
    + by intros ? [=].
Qed.

(** X15. The completion probe always settles, with a boolean. It passes
    exactly when the call returned and the message of the first choice
    has a content that is not empty; later choices are not looked at.
    When the call returned without such a content the detail is
    [Empty response]. *)
Theorem openai_probe_first_choice (h : Host) (env : Env) :
  exists r passed,
    checkOpenAI h env = (Normal r, env)
    /\ ok r = JBool passed
    /\ (passed = true <->
        exists res c cs m text,
          chat_completions_create h (env !! OPENAI_API_KEY) = Normal res
          /\ choices res = Some (c :: cs)
          /\ choice_message c = Some m
          /\ content m = Some text
          /\ text <> [])
    /\ (passed = true -> detail r = lit "OK")
    /\ (forall res,
          chat_completions_create h (env !! OPENAI_API_KEY) = Normal res ->
          passed = false -> detail r = lit "Empty response").
Proof.
  rewrite checkOpenAI_eq.
  destruct (chat_completions_create h (env !! OPENAI_API_KEY)) as [res|e].
  - eexists _, _. split; [reflexivity|]. split; [reflexivity|].
    cbn [detail]. split; [|split].
    + destruct res as [chs]. destruct chs as [[|c cs]|]; cbn;
        [split; [discriminate|];
         by intros (? & ? & ? & ? & ? & [= <-] & [=] & _)
        | |split; [discriminate|];
         by intros (? & ? & ? & ? & ? & [= <-] & [=] & _)].
      destruct c as [msg]. destruct msg as [[cont]|]; cbn;
        [|split; [discriminate|];
          by intros (? & ? & ? & ? & ? & [= <-] & [= <- <-] & [=] & _)].
      destruct cont as [[|t text]|]; cbn.
      * split; [discriminate|].
        by intros (? & ? & ? & ? & ? & [= <-] & [= <- <-] & [= <-] & [= <-] & ?).
      * split; [|done]. intros _.
        eexists _, _, _, _, _. repeat (split; [reflexivity|]). done.
      * split; [discriminate|].
        by intros (? & ? & ? & ? & ? & [= <-] & [= <- <-] & [= <-] & [=] & _).
    + by intros ->.
    + by intros res' _ ->.
  - exists {| ok := JBool false;
              ms := nowMs_end h OpenAI - nowMs_start h OpenAI;
              detail := errorDetail e |}, false.
    split; [reflexivity|]. split; [reflexivity|]. split; [|split].
    + split; [discriminate|]. by intros (? & ? & ? & ? & ? & [=] & _).
    + discriminate.
    + by intros ? [=].
Qed.

(** X16. The database probe always settles, with a boolean. It passes
    exactly when the insert returned without an error object; an error
    object fails it with [Insert failed: ] and the error's message. *)
Theorem supabase_probe_insert (h : Host) (env : Env) :
  exists r passed,
    checkSupabase h env = (Normal r, env)
    /\ ok r = JBool passed
    /\ (passed = true <->
        system_check_insert h (env !! SUPABASE_URL)
          (env !! SUPABASE_SERVICE_ROLE_KEY) = Normal {| error := None |})
    /\ (passed = true -> detail r = lit "Inserted dummy record")
    /\ (forall err,
          system_check_insert h (env !! SUPABASE_URL)
            (env !! SUPABASE_SERVICE_ROLE_KEY) = Normal {| error := Some err |} ->
          passed = false
          /\ detail r = lit "Insert failed: " ++ error_message err).
Proof.
  rewrite checkSupabase_eq.
  destruct (system_check_insert h _ _) as [[[err|]]|e]; cbn [error];
    eexists _, _; (split; [reflexivity|]); (split; [reflexivity|]);
    cbn [detail]; (split; [split; congruence|]); (split; [congruence|]).
  - by intros err' [= <-].
  - by intros err' [=].
  - by intros err' [=].
Qed.


(** X18. When the vendor call of a probe throws, the probe settles with
    a failure that still carries the elapsed time, and its detail is the
    message of the exception, or [String(e)] when there is no message or
    an empty one. For the payments probe this holds for the retrieval of
    the price and for the retrieval of the product. *)
Theorem probe_failure_detail (h : Host) (env : Env) (e : JsError) :
  let failed p :=
    {| ok := JBool false; ms := nowMs_end h p - nowMs_start h p;
       detail := errorDetail e |} in
  (chat_completions_create h (env !! OPENAI_API_KEY) = Throw e ->
   checkOpenAI h env = (Normal (failed OpenAI), env))
  /\ (system_check_insert h (env !! SUPABASE_URL)
        (env !! SUPABASE_SERVICE_ROLE_KEY) = Throw e ->
      checkSupabase h env = (Normal (failed Supabase), env))
  /\ (prices_retrieve h (env !! STRIPE_SECRET_KEY)
        (env !! STRIPE_PRICE_RESPONSE) = Throw e ->
      checkStripe h env = (Normal (failed Stripe), env))
  /\ (forall id,
        prices_retrieve h (env !! STRIPE_SECRET_KEY)
          (env !! STRIPE_PRICE_RESPONSE) = Normal {| product := ProductRef id |} ->
        products_retrieve h (env !! STRIPE_SECRET_KEY) id = Throw e ->
        checkStripe h env = (Normal (failed Stripe), env))
  /\ (sgMail_client_request h (env !! SENDGRID_API_KEY) = Throw e ->
      checkSendGrid h env = (Normal (failed SendGrid), env))
  /\ (fetch h (env !! SITE_URL) = Throw e ->
      checkSiteUrl h env = (Normal (failed SiteUrl), env))
  /\ (forall m, message e = Some m -> m <> [] -> errorDetail e = m)
  /\ (message e = None \/ message e = Some [] -> errorDetail e = toString e).
Proof.
  cbv zeta. repeat split.
  - intros H. by rewrite checkOpenAI_eq, H.
  - intros H. by rewrite checkSupabase_eq, H.
  - intros H. by rewrite checkStripe_eq, H.
  - intros id H1 H2. rewrite checkStripe_eq, H1. cbn [product]. by rewrite H2.
  - intros H. by rewrite checkSendGrid_eq, H.
  - intros H. by rewrite checkSiteUrl_eq, H.
  - intros m Hm Hne. unfold errorDetail. rewrite Hm.
    by destruct m.
  - intros [Hm|Hm]; unfold errorDetail; by rewrite Hm.
Qed.

Lemma probe_failure_detail_witness :
  fst (checkSiteUrl offline ∅)
  = Normal {| ok := JBool false; ms := 1; detail := lit "connect ECONNREFUSED" |}.
Proof.
  destruct (probe_failure_detail offline ∅ ECONNREFUSED)
    as (_ & _ & _ & _ & _ & Hsite & _).
  rewrite Hsite; reflexivity.
Defined.

(** ** Extras: the clock and the report *)

(** X19. [nowMs] cuts a reading of the nanosecond clock down to whole
    milliseconds. Between two readings of a clock that does not go back
    the difference of the two values is not negative, and it is within
    one millisecond of the time that passed. *)
Theorem nowMs_elapsed (hr1 hr2 : Z) :
  0 <= hr1 -> hr1 <= hr2 ->
  0 <= nowMs hr2 - nowMs hr1
  /\ hr2 - hr1 - 1000000 < 1000000 * (nowMs hr2 - nowMs hr1)
  /\ 1000000 * (nowMs hr2 - nowMs hr1) < hr2 - hr1 + 1000000.
Proof.
  intros H1 H2. unfold nowMs. rewrite !Z.quot_div_nonneg by lia.
  pose proof (Z.div_mod hr1 1000000). pose proof (Z.div_mod hr2 1000000).
  pose proof (Z.mod_pos_bound hr1 1000000).
  pose proof (Z.mod_pos_bound hr2 1000000).
  assert (hr1 / 1000000 <= hr2 / 1000000) by (apply Z.div_le_mono; lia).
  lia.
Qed.

Lemma nowMs_elapsed_witness :
  0 <= nowMs 2000001 - nowMs 1999999
  /\ nowMs 2000001 - nowMs 1999999 = 1.
Proof.
  split; [|reflexivity].
  apply (nowMs_elapsed 1999999 2000001); lia.
Defined.

(** X20. The reported average lies between the shortest and the longest
    of the five elapsed times; with a clock that does not go back it is
    not negative. *)
Theorem average_within_range (h : Host) (env : Env) (run : Run) (lo hi : Z) :
  fst (main h env) = Normal run ->
  (forall p, lo <= nowMs_end h p - nowMs_start h p <= hi) ->
  lo <= avgTime run <= hi.
Proof.
  intros Hmain Hrange.
  destruct (resolveEnv h env) as [[[]|e] env'] eqn:R;
    [|rewrite (main_throws h env e env' R) in Hmain; discriminate].
  destruct (main_resolved h env env' R)
    as (r0 & r1 & r2 & r3 & r4 & run' & H0 & H1 & H2 & H3 & H4 & E & _ & _ & Havg & _).
  rewrite E in Hmain. injection Hmain as ->.
  rewrite Havg, Math_round_fifth.
  rewrite (proj1 (probe_elapsed h env' r0) H0).
  rewrite (proj1 (proj2 (probe_elapsed h env' r1)) H1).
  rewrite (proj1 (proj2 (proj2 (probe_elapsed h env' r2))) H2).
  rewrite (proj1 (proj2 (proj2 (proj2 (probe_elapsed h env' r3)))) H3).
  rewrite (proj2 (proj2 (proj2 (proj2 (probe_elapsed h env' r4)))) H4).
  pose proof (Hrange OpenAI). pose proof (Hrange Supabase).
  pose proof (Hrange Stripe). pose proof (Hrange SendGrid).
  pose proof (Hrange SiteUrl).
  split.
  - apply Z.div_le_lower_bound; lia.
  - match goal with |- ?a / 10 <= _ =>
      assert (a / 10 < hi + 1) by (apply Z.div_lt_upper_bound; lia)
    end.
    lia.
Qed.

Lemma average_within_range_witness :
  exists run,
    fst (main (responding 200) (all_set (lit "x"))) = Normal run
    /\ 10 <= avgTime run <= 50.
Proof.
  destruct (main (responding 200) (all_set (lit "x"))) as [[run|e] env'] eqn:E.
  - exists run. split; [reflexivity|].
    apply (average_within_range (responding 200) (all_set (lit "x")) run).
    + rewrite E. reflexivity.
    + intros []; cbn; lia.
  - assert (fst (main (responding 200) (all_set (lit "x"))) = Throw e) as F
      by (rewrite E; reflexivity).
    vm_compute in F. discriminate F.
Defined.

(** X21. The status of the environment that [main] reports has one entry
    per required variable, in the declared order, each with the presence
    flag of that variable in the resolved environment; the missing keys
    are the required variables with a false flag, in the same order, and
    there is none exactly when every required variable is present. *)
Theorem status_follows_declared_order (h : Host) (env : Env) (run : Run) :
  fst (main h env) = Normal run ->
  fst <$> envStatus run = REQUIRED_VARS
  /\ snd <$> envStatus run = present (snd (main h env)) <$> REQUIRED_VARS
  /\ missingKeys run
     = List.filter (fun key => negb (present (snd (main h env)) key)) REQUIRED_VARS
  /\ (missingKeys run = [] <->
      forall key, key ∈ REQUIRED_VARS -> present (snd (main h env)) key = true).
Proof.
  intros Hmain.
  destruct (resolveEnv h env) as [[[]|e] env'] eqn:R;
    [|rewrite (main_throws h env e env' R) in Hmain; discriminate].
  destruct (main_resolved h env env' R)
    as (r0 & r1 & r2 & r3 & r4 & run' & _ & _ & _ & _ & _ & E & Hstatus & _ & _ & Hmk & _).
  rewrite E in Hmain. injection Hmain as ->. rewrite E. cbn [snd].
  rewrite Hstatus, Hmk, <- !list_fmap_compose.
  split; [apply list_fmap_id|]. split; [done|]. split; [done|].
  generalize REQUIRED_VARS as keys. intros keys.
  induction keys as [|key keys IH]; cbn.
  - split; [|done]. intros _ key Hin. inversion Hin.
  - destruct (present env' key) eqn:Hp; cbn.
    + rewrite IH. split.
      * intros Hall k [->|Hin]%elem_of_cons; auto.
      * intros Hall k Hin. apply Hall. by right.
    + split; [discriminate|]. intros Hall.
      assert (key ∈ key :: keys) as Hin by constructor.
      specialize (Hall key Hin). congruence.
Qed.

Lemma status_follows_declared_order_witness :
  exists run,
    fst (main offline ∅) = Normal run
    /\ missingKeys run = REQUIRED_VARS.
Proof.
  destruct (main offline ∅) as [[run|e] env'] eqn:E.
  - exists run. split; [reflexivity|].
    destruct (status_follows_declared_order offline ∅ run) as (_ & _ & -> & _).
    + rewrite E. reflexivity.
    + reflexivity.
  - assert (fst (main offline ∅) = Throw e) as F by (rewrite E; reflexivity).
    vm_compute in F. discriminate F.
Defined.

Lemma probes_ignore_clock (h : Host) (start finish : Probe -> Z) (env : Env) :
  let h' := with_clock h start finish in
  forall r0 r1 r2 r3 r4 s0 s1 s2 s3 s4,
    checkOpenAI h env = (Normal r0, env) -> checkOpenAI h' env = (Normal s0, env) ->
    checkSupabase h env = (Normal r1, env) -> checkSupabase h' env = (Normal s1, env) ->
    checkStripe h env = (Normal r2, env) -> checkStripe h' env = (Normal s2, env) ->
    checkSendGrid h env = (Normal r3, env) -> checkSendGrid h' env = (Normal s3, env) ->
    checkSiteUrl h env = (Normal r4, env) -> checkSiteUrl h' env = (Normal s4, env) ->
    (fun r => (ok r, detail r)) <$> [s0; s1; s2; s3; s4]
    = (fun r => (ok r, detail r)) <$> [r0; r1; r2; r3; r4].
Proof.
  intros h' r0 r1 r2 r3 r4 s0 s1 s2 s3 s4.
  rewrite !checkOpenAI_eq, !checkSupabase_eq, !checkStripe_eq,
    !checkSendGrid_eq, !checkSiteUrl_eq.
  subst h'. cbn [with_clock chat_completions_create system_check_insert
    prices_retrieve products_retrieve sgMail_client_request fetch].
  intros [= <-] [= <-] [= <-] [= <-] [= <-] [= <-] [= <-] [= <-] [= <-] [= <-].
  cbn [fmap list_fmap].
  repeat (apply (f_equal2 cons)); [| | | | |reflexivity].
  - by destruct (chat_completions_create h _).
  - by destruct (system_check_insert h _ _) as [[[err|]]|].
  - destruct (prices_retrieve h _ _) as [[[id|[p|]]]|]; cbn [product]; try done.
    + destruct (products_retrieve h _ id) as [[p|]|]; try done.
      by destruct (Str.nonEmpty (product_id p)).
    + by destruct (Str.nonEmpty (product_id p)).
  - destruct (sgMail_client_request h _) as [result|]; [|done].
    destruct (r ← head result; statusCode r) as [n|]; [|done].
    destruct (n =? 0); [done|]. by destruct (n <? 400).
  - by destruct (fetch h _).
Qed.

(** X22. The readings of the clock have no part in the verdict: with any
    other readings the five results have the same [ok] and the same
    detail, and the process exits with the same code. No probe is failed
    for being slow. *)
Theorem verdict_ignores_clock (h : Host) (start finish : Probe -> Z) (env : Env) :
  prod_check (with_clock h start finish) env = prod_check h env
  /\ forall run run',
       fst (main h env) = Normal run ->
       fst (main (with_clock h start finish) env) = Normal run' ->
       (fun r => (ok r, detail r)) <$> Object_values (report run')
       = (fun r => (ok r, detail r)) <$> Object_values (report run)
       /\ missingKeys run' = missingKeys run.
Proof.
  assert (resolveEnv (with_clock h start finish) env = resolveEnv h env) as Hres
    by reflexivity.
  unfold prod_check.
  destruct (resolveEnv h env) as [[[]|e] env'] eqn:R.
  - destruct (main_resolved h env env' R)
      as (r0 & r1 & r2 & r3 & r4 & run & H0 & H1 & H2 & H3 & H4 & E & _ & Hrep & _ & Hmk & Hexit).
    destruct (main_resolved (with_clock h start finish) env env' Hres)
      as (s0 & s1 & s2 & s3 & s4 & run' & K0 & K1 & K2 & K3 & K4 & E' & _ & Hrep' & _ & Hmk' & Hexit').
    pose proof (probes_ignore_clock h start finish env'
                  r0 r1 r2 r3 r4 s0 s1 s2 s3 s4 H0 K0 H1 K1 H2 K2 H3 K3 H4 K4)
      as Hsame.
    rewrite E, E'. split.
    + rewrite Hexit, Hexit'. cbn [forallb]. cbn [fmap list_fmap] in Hsame.
      injection Hsame as -> _ -> _ -> _ -> _ -> _. done.
    + intros ? ? [= <-] [= <-]. rewrite Hrep, Hrep', Hmk, Hmk'. by split.
  - rewrite (main_throws h env e env' R).
    rewrite (main_throws (with_clock h start finish) env e env' Hres).
    split; [done|]. intros ? ? [=].
Qed.

(** ** Extras: the run as a whole *)

Lemma touches_weaken (P Q : jstr -> Prop) env env' :
  (forall k, P k -> Q k) -> touches P env env' -> touches Q env env'.
Proof. intros HPQ H k. destruct (H k) as [?|[? ?]]; [by left | right; auto]. Qed.

Lemma loadEnvFromNetlify_touches (h : Host) (env : Env) :
  touches (fun k => k ∈ REQUIRED_VARS) env (snd (loadEnvFromNetlify h env)).
Proof.
  destruct (loadEnvFromNetlify_frame h env) as (loaded & env' & -> & _ & _ & Hall).
  intros k. destruct (Hall k) as [?|(Hk & _ & out & _ & Hok & Hv)]; [by left|].
  right. split; [done|]. cbn [snd]. rewrite Hv. cbn.
  by apply usableValue_nonEmpty.
Qed.

Lemma aliasEnv_touches alias canonical env :
  touches (fun k => k = canonical) env (aliasEnv alias canonical env).
Proof.
  intros k. destruct (decide (k = canonical)) as [->|Hne].
  - destruct (truthy (env !! alias) && negb (truthy (env !! canonical))) eqn:E.
    + right. split; [done|]. unfold aliasEnv. rewrite E.
      rewrite lookup_insert_eq. apply andb_true_iff in E as [Ha _].
      by destruct (env !! alias).
    + left. unfold aliasEnv. by rewrite E.
  - left. by apply aliasEnv_other.
Qed.

Lemma resolveEnv_touches (h : Host) (env : Env) :
  touches (fun k => k ∈ REQUIRED_VARS \/ file_key k) env (snd (resolveEnv h env)).
Proof.
  assert (forall e, touches (fun k => k ∈ REQUIRED_VARS \/ file_key k)
                      e (snd (mapEnvVars e))) as Halias.
  { intros e. rewrite mapEnvVars_eq. cbn [snd].
    eapply touches_trans;
      (eapply touches_weaken; [|apply aliasEnv_touches]);
      intros k ->; left; apply (bool_decide_unpack _); by vm_compute. }
  assert (forall e, touches (fun k => k ∈ REQUIRED_VARS \/ file_key k)
                      e (snd (loadEnvFromFile h e))) as Hfile.
  { intros e. eapply touches_weaken; [intros k Hk; right; exact Hk|].
    destruct (existsSync h (lit ".env")) eqn:Hex.
    - destruct (readFileSync h (lit ".env")) as [envContent|err] eqn:Hread.
      + rewrite (loadEnvFromFile_readable h _ envContent) by done.
        apply foldl_lineEnv_touches.
      + rewrite (loadEnvFromFile_unreadable h _ err) by done. apply touches_refl.
    - rewrite loadEnvFromFile_missing by done. apply touches_refl. }
  pose proof (loadEnvFromNetlify_touches h env) as Hcli.
  apply (touches_weaken _ (fun k => k ∈ REQUIRED_VARS \/ file_key k)) in Hcli;
    [|by left].
  unfold resolveEnv, bind.
  destruct (loadEnvFromNetlify h env) as [[loaded|e1] env1]; [|done].
  cbn [snd] in Hcli. destruct loaded.
  - unfold ret. cbv beta iota. eauto using touches_trans.
  - specialize (Hfile env1).
    destruct (loadEnvFromFile h env1) as [[[]|e2] env2]; cbn [snd] in *;
      eauto using touches_trans.
Qed.

(** X23. A run on text only adds: when the commands print and [.env]
    holds text without NUL, a variable whose final value differs from the
    one the process started with was not set at the start (undefined or
    empty), is set at the end, and is a required variable or a key that
    a line of [.env] can define. No variable is removed or emptied, and
    no set variable is changed. *)
Theorem run_only_adds (h : Host) (env : Env) (k : jstr) :
  text_outputs h ->
  snd (main h env) !! k <> env !! k ->
  truthy (env !! k) = false
  /\ truthy (snd (main h env) !! k) = true
  /\ (k ∈ REQUIRED_VARS \/ file_key k).
Proof.
  rewrite main_env. intros _ Hchanged.
  destruct (resolveEnv_extends h env k) as [?|[Hunset Hset]]; [done|].
  split; [done|]. split; [done|].
  by destruct (resolveEnv_touches h env k) as [?|[? _]].
Qed.

Lemma run_only_adds_witness :
  truthy (snd (main (with_file offline (Normal sample_file)) ∅) !! lit "KEY") = true
  /\ (lit "KEY" ∈ REQUIRED_VARS \/ file_key (lit "KEY")).
Proof.
  destruct (run_only_adds (with_file offline (Normal sample_file)) ∅ (lit "KEY"))
    as (_ & Hset & Hkind); [text_host | discriminate |].
  split; [exact Hset | exact Hkind].
Defined.

(** X24. When every required variable is already set, the CLI is not
    asked for any value: the CLI source leaves [process.env] as it is and
    returns [false] even for a linked site, and the required variables
    end the run with the values they started with. *)
Theorem configured_env_skips_cli (h : Host) (env : Env) :
  (forall key, key ∈ REQUIRED_VARS -> truthy (env !! key) = true) ->
  loadEnvFromNetlify h env = (Normal false, env)
  /\ forall key, key ∈ REQUIRED_VARS -> snd (main h env) !! key = env !! key.
Proof.
  intros Hset. split.
  - destruct (loadEnvFromNetlify_frame h env)
      as (loaded & env' & -> & Hsame & Hnew & _).
    destruct loaded.
    + destruct (Hnew eq_refl) as (k & Hk & Hunset & _).
      specialize (Hset k Hk). congruence.
    + by rewrite Hsame.
  - intros key Hkey. rewrite main_env.
    apply extends_keeps; [apply resolveEnv_extends | by apply Hset].
Qed.

Lemma configured_env_skips_cli_witness :
  loadEnvFromNetlify linked (all_set (lit "x")) = (Normal false, all_set (lit "x")).
Proof.
  apply (configured_env_skips_cli linked (all_set (lit "x"))).
  intros key Hkey.
  repeat (apply elem_of_cons in Hkey as [->|Hkey]; [reflexivity|]).
  inversion Hkey.
Defined.

(** X25. Linking by site name succeeds exactly when its command does.
    When the status command and [netlify link --git] fail and exactly one
    listed site has a name that holds [audit] or [response], the site
    counts as linked if [netlify link --id] with the id of that site
    completes, and not if it fails: then the CLI source contributes
    nothing. *)
Theorem name_link_follows_command (h : Host) (env : Env)
    (e1 e2 : JsError) (gitRemote sitesOutput : jstr) (sites : list Site)
    (site : Site) :
  execSync h (lit "netlify status --json") = Throw e1 ->
  execSync h (lit "git remote get-url origin") = Normal gitRemote ->
  execSync h (lit "netlify link --git") = Throw e2 ->
  execSync h (lit "netlify sites:list --json") = Normal sitesOutput ->
  JSON_parse_sites h sitesOutput = Normal (SitesArray sites) ->
  List.filter (possibleSite h) sites = [site] ->
  checkLinked h env
  = (Normal match execSync h (lit "netlify link --id " ++ site_id site) with
            | Normal _ => true
            | Throw _ => false
            end, env)
  /\ ((exists e, execSync h (lit "netlify link --id " ++ site_id site) = Throw e) ->
      loadEnvFromNetlify h env = (Normal false, env)).
Proof.
  intros Hstatus Hgit Hlink Hlist Hparse Hone.
  assert (checkLinked h env
          = (Normal match execSync h (lit "netlify link --id " ++ site_id site) with
                    | Normal _ => true
                    | Throw _ => false
                    end, env)) as Hlinked.
  { unfold checkLinked, autoLink. unfold_js.
    rewrite Hstatus, Hgit, Hlink, Hlist, Hparse, Hone.
    by destruct (execSync h (lit "netlify link --id " ++ site_id site)). }
  split; [exact Hlinked|].
  intros [e He]. unfold loadEnvFromNetlify, try_catch, bind.
  by rewrite Hlinked, He.
Qed.

Lemma name_link_follows_command_witness :
  checkLinked (one_candidate (Normal (lit "Linked"))) ∅ = (Normal true, ∅)
  /\ checkLinked (one_candidate (Throw ENOENT)) ∅ = (Normal false, ∅)
  /\ loadEnvFromNetlify (one_candidate (Throw ENOENT)) ∅ = (Normal false, ∅).
Proof.
  split; [|split].
  - apply (proj1 (name_link_follows_command
                    (one_candidate (Normal (lit "Linked"))) ∅ ENOENT ENOENT
                    (lit "value") (lit "value") _
                    {| site_name := Some (lit "auditresponse");
                       site_id := lit "s2" |}
                    eq_refl eq_refl eq_refl eq_refl eq_refl eq_refl)).
  - apply (proj1 (name_link_follows_command
                    (one_candidate (Throw ENOENT)) ∅ ENOENT ENOENT
                    (lit "value") (lit "value") _
                    {| site_name := Some (lit "auditresponse");
                       site_id := lit "s2" |}
                    eq_refl eq_refl eq_refl eq_refl eq_refl eq_refl)).
  - apply (proj2 (name_link_follows_command
                    (one_candidate (Throw ENOENT)) ∅ ENOENT ENOENT
                    (lit "value") (lit "value") _
                    {| site_name := Some (lit "auditresponse");
                       site_id := lit "s2" |}
                    eq_refl eq_refl eq_refl eq_refl eq_refl eq_refl)).
    exists ENOENT. reflexivity.
Defined.

(** X26. The resolution completes exactly when the CLI source has loaded
    a variable, or [.env] is missing, or [.env] can be read; in every
    other case it throws what the read of [.env] threw. When it
    completes, [main] runs the five probes and returns their report. *)
Theorem resolution_completes_iff (h : Host) (env : Env) :
  (fst (resolveEnv h env) = Normal tt
   <-> fst (loadEnvFromNetlify h env) = Normal true
       \/ existsSync h (lit ".env") = false
       \/ exists envContent, readFileSync h (lit ".env") = Normal envContent)
  /\ (forall e, fst (resolveEnv h env) = Throw e ->
        readFileSync h (lit ".env") = Throw e)
  /\ (fst (resolveEnv h env) = Normal tt ->
      exists run, fst (main h env) = Normal run /\ length (report run) = 5%nat).
Proof.
  assert (fst (resolveEnv h env) =
          match fst (loadEnvFromNetlify h env) with
          | Normal true => Normal tt
          | _ => if existsSync h (lit ".env")
                 then match readFileSync h (lit ".env") with
                      | Normal _ => Normal tt
                      | Throw e => Throw e
                      end
                 else Normal tt
          end) as R.
  { unfold resolveEnv, bind.
    destruct (loadEnvFromNetlify_spec h env) as (loaded & env1 & -> & _).
    cbn [fst]. destruct loaded; [unfold ret; by rewrite mapEnvVars_eq|].
    destruct (existsSync h (lit ".env")) eqn:Hex.
    - destruct (readFileSync h (lit ".env")) as [envContent|e] eqn:Hread.
      + by rewrite (loadEnvFromFile_readable h env1 envContent),
          mapEnvVars_eq by done.
      + by rewrite (loadEnvFromFile_unreadable h env1 e) by done.
    - by rewrite loadEnvFromFile_missing, mapEnvVars_eq by done. }
  split; [|split].
  - rewrite R.
    destruct (loadEnvFromNetlify_spec h env) as (loaded & env1 & -> & _).
    cbn [fst]. destruct loaded; [by split; [left|]|].
    destruct (existsSync h (lit ".env")); [|by split; [right; left|]].
    destruct (readFileSync h (lit ".env")) as [envContent|e].
    + split; [right; right; eauto | done].
    + split; [done|]. intros [?|[?|[? ?]]]; done.
  - intros e. rewrite R.
    destruct (loadEnvFromNetlify_spec h env) as (loaded & env1 & -> & _).
    cbn [fst]. destruct loaded; [done|].
    destruct (existsSync h (lit ".env")); [|done].
    destruct (readFileSync h (lit ".env")); [done | by intros [= ->]].
  - intros Hdone.
    destruct (resolveEnv h env) as [c env'] eqn:E. cbn [fst] in Hdone. subst c.
    destruct (main_resolved h env env' E)
      as (r0 & r1 & r2 & r3 & r4 & run & _ & _ & _ & _ & _ & -> & _ & Hrep & _).
    exists run. by rewrite Hrep.
Qed.

Lemma resolution_completes_iff_witness :
  fst (resolveEnv (with_file offline (Normal sample_file)) ∅) = Normal tt
  /\ readFileSync (with_file offline (Throw EACCES)) (lit ".env") = Throw EACCES
  /\ exists run, fst (main offline ∅) = Normal run /\ length (report run) = 5%nat.
Proof.
  split; [|split].
  - apply (proj1 (resolution_completes_iff
                    (with_file offline (Normal sample_file)) ∅)).
    right. right. exists sample_file. reflexivity.
  - apply (proj1 (proj2 (resolution_completes_iff
                           (with_file offline (Throw EACCES)) ∅))).
    reflexivity.
  - apply (proj2 (proj2 (resolution_completes_iff offline ∅))).
    reflexivity.
Defined.

(** ** Text in, text out *)

Lemma trimStart_elem c s : c ∈ Str.trimStart s -> c ∈ s.
Proof.
  induction s as [|d s IH]; cbn; [done|].
  destruct (Str.isWhiteSpace d); [|done]. intros H. right. by apply IH.
Qed.

Lemma trim_elem c s : c ∈ Str.trim s -> c ∈ s.
Proof.
  unfold Str.trim, Str.trimEnd. rewrite elem_of_reverse.
  intros H%trimStart_elem. rewrite elem_of_reverse in H.
  by apply trimStart_elem.
Qed.

Lemma dropLeadingQuote_elem c s : c ∈ Str.dropLeadingQuote s -> c ∈ s.
Proof.
  destruct s as [|d s]; cbn; [done|].
  destruct (Str.isQuote d); [|done]. intros H. by right.
Qed.

Lemma replaceEdgeQuotes_elem c s : c ∈ Str.replaceEdgeQuotes s -> c ∈ s.
Proof.
  unfold Str.replaceEdgeQuotes, Str.dropTrailingQuote.
  rewrite elem_of_reverse. intros H%dropLeadingQuote_elem.
  rewrite elem_of_reverse in H. by apply dropLeadingQuote_elem.
Qed.

Lemma split_elem sep s w c : w ∈ Str.split sep s -> c ∈ w -> c ∈ s.
Proof.
  revert w. induction s as [|d s IH]; intros w; cbn.
  - intros ->%list_elem_of_singleton. by inversion 1.
  - destruct (d =? sep)%N.
    + intros [->|Hw]%elem_of_cons Hc; [by inversion Hc|].
      right. by apply (IH w).
    + destruct (split_cons sep s) as (w0 & ws & E). rewrite E in *.
      intros [->|Hw]%elem_of_cons Hc.
      * apply elem_of_cons in Hc as [->|Hc]; [by left|].
        right. apply (IH w0); [by left | done].
      * right. apply (IH w); [by right | done].
Qed.

Lemma env_text_insert key value env :
  nul_free key -> nul_free value -> env_text env ->
  env_text (<[key := value]> env).
Proof.
  intros Hk Hv Henv k v. destruct (decide (key = k)) as [<-|Hne].
  - rewrite lookup_insert_eq. by intros [= <-].
  - rewrite lookup_insert_ne by done. apply Henv.
Qed.

(** A line of text assigns text. *)
Lemma lineEnv_text line env :
  nul_free line -> env_text env -> env_text (lineEnv line env).
Proof.
  intros Hline Henv.
  destruct (decide (61%N ∈ Str.trim line)) as [Heq|Heq];
    [|by rewrite lineEnv_skip by tauto].
  destruct (first_occurrence _ _ Heq) as (key & raw & Ht & Hkey).
  destruct (Str.startsWith (lit "#") (Str.trim line)) eqn:Hhash.
  { rewrite lineEnv_skip; [done|]. right. left.
    rewrite lit_hash in Hhash. by apply startsWith_one. }
  rewrite (lineEnv_assign line env key raw) by done.
  destruct (_ && _); [|done].
  assert (forall c, c ∈ Str.trim line -> c <> 0%N) as Htext.
  { intros c Hc%trim_elem ->. by apply Hline. }
  apply env_text_insert; [| |done].
  - intros H0. apply (Htext 0%N); [|done].
    rewrite Ht. apply elem_of_app. by left.
  - intros H0%replaceEdgeQuotes_elem. apply (Htext 0%N); [|done].
    rewrite Ht. apply elem_of_app. right. by right.
Qed.

Lemma loadEnvFromFile_text (h : Host) (env : Env) :
  text_files h -> env_text env -> env_text (snd (loadEnvFromFile h env)).
Proof.
  intros Hfiles Henv.
  destruct (existsSync h (lit ".env")) eqn:Hex;
    [|by rewrite loadEnvFromFile_missing].
  destruct (readFileSync h (lit ".env")) as [envContent|e] eqn:Hread;
    [|by rewrite (loadEnvFromFile_unreadable h env e)].
  rewrite (loadEnvFromFile_readable h env envContent) by done. cbn [snd].
  assert (forall line, line ∈ Str.split 10 envContent -> nul_free line) as Hlines.
  { intros line Hin H0. apply (Hfiles _ _ Hread). by apply (split_elem 10 _ line). }
  revert env Henv Hlines.
  induction (Str.split 10 envContent) as [|l lines IH]; intros env Henv Hlines;
    [done|].
  cbn [foldl]. apply IH.
  - apply lineEnv_text; [apply Hlines; by left | done].
  - intros line Hin. apply Hlines. by right.
Qed.

Lemma loadEnvFromNetlify_text (h : Host) (env : Env) :
  text_commands h -> env_text env -> env_text (snd (loadEnvFromNetlify h env)).
Proof.
  intros Hcmds Henv.
  destruct (loadEnvFromNetlify_frame h env) as (loaded & env' & -> & _ & _ & Hall).
  cbn [snd]. intros k v Hkv.
  destruct (Hall k) as [E|(Hk & _ & out & Hout & _ & Hv)].
  - rewrite E in Hkv. by apply Henv.
  - rewrite Hv in Hkv. injection Hkv as <-. split.
    + repeat (apply elem_of_cons in Hk as [->|Hk]; [text_literal|]).
      inversion Hk.
    + intros H0%trim_elem. by apply (Hcmds _ _ Hout).
Qed.

Lemma aliasEnv_text alias canonical env :
  nul_free canonical -> env_text env -> env_text (aliasEnv alias canonical env).
Proof.
  intros Hc Henv. unfold aliasEnv. destruct (_ && _); [|done].
  apply env_text_insert; [done| |done].
  destruct (env !! alias) as [v|] eqn:E; [by apply (Henv alias v)|].
  cbn. text_literal.
Qed.

(** X27. A run on text assigns only text: when the process starts with
    variables whose names and values have no NUL, the commands print and
    the files hold text without NUL, then every variable has a name and a
    value without NUL after the run. The store keeps such names and
    values exactly as they are assigned. *)
Theorem run_keeps_text (h : Host) (env : Env) :
  text_outputs h -> env_text env ->
  env_text (snd (main h env))
  /\ forall key value,
       snd (main h env) !! key = Some value ->
       c_string key = key /\ c_string value = value.
Proof.
  intros [Hcmds Hfiles] Henv.
  assert (env_text (snd (main h env))) as Hrun.
  { rewrite main_env. unfold resolveEnv, bind.
    pose proof (loadEnvFromNetlify_text h env Hcmds Henv) as H1.
    destruct (loadEnvFromNetlify_spec h env) as (loaded & env1 & E & _).
    rewrite E in *. cbn [snd] in H1.
    assert (forall e, env_text e -> env_text (snd (mapEnvVars e))) as Halias.
    { intros e He. rewrite mapEnvVars_eq. cbn [snd].
      apply aliasEnv_text; [text_literal|].
      apply aliasEnv_text; [text_literal | done]. }
    destruct loaded; [unfold ret; by apply Halias|].
    pose proof (loadEnvFromFile_text h env1 Hfiles H1) as H2.
    destruct (loadEnvFromFile h env1) as [[[]|e] env2]; cbn [snd] in *;
      [by apply Halias | done]. }
  split; [exact Hrun|].
  intros key value Hkv. destruct (Hrun key value Hkv).
  by rewrite !c_string_text.
Qed.

Lemma run_keeps_text_witness :
  nul_free (lit "quoted value")
  /\ c_string (lit "quoted value") = lit "quoted value".
Proof.
  destruct (run_keeps_text (with_file offline (Normal sample_file)) ∅)
    as [Htext Hkept].
  - text_host.
  - intros key value. rewrite lookup_empty. discriminate.
  - split.
    + apply (Htext (lit "KEY") (lit "quoted value")). reflexivity.
    + apply (Hkept (lit "KEY") (lit "quoted value")). reflexivity.
Defined.

(** X28. A line of [.env] whose key is a name that [Object.prototype]
    defines assigns nothing as long as no variable has this name:
    [process.env[key]] is then the inherited member, which is truthy, so
    the key counts as set. [toString=abc] and [constructor=x] leave an
    empty environment empty. *)
Theorem inherited_name_not_assigned (line : jstr) (env : Env) (key raw : jstr) :
  Str.trim line = key ++ 61%N :: raw ->
  key ∈ Object_prototype ->
  env !! key = None ->
  is_set env key = true
  /\ lineEnv line env = env
  /\ lineEnv (lit "toString=abc") ∅ = ∅
  /\ lineEnv (lit "constructor=x") ∅ = ∅.
Proof.
  intros Ht Hkey Hnone.
  assert (is_set env key = true) as Hset.
  { unfold is_set, property_of. rewrite Hnone.
    by rewrite bool_decide_eq_true_2. }
  split; [done|]. split; [|by vm_compute].
  assert (61%N ∉ key) as Hno.
  { repeat (apply elem_of_cons in Hkey as [->|Hkey];
            [apply (bool_decide_unpack _); by vm_compute|]).
    inversion Hkey. }
  destruct (Str.startsWith (lit "#") (Str.trim line)) eqn:Hhash.
  - apply lineEnv_skip. right. left. rewrite lit_hash in Hhash.
    by apply startsWith_one.
  - rewrite (lineEnv_assign line env key raw) by done.
    by rewrite Hset, andb_false_r.
Qed.

Lemma inherited_name_not_assigned_witness :
  is_set ∅ (lit "valueOf") = true
  /\ lineEnv (lit "valueOf=1") ∅ = ∅.
Proof.
  destruct (inherited_name_not_assigned (lit "valueOf=1") ∅ (lit "valueOf") (lit "1"))
    as (Hset & Hline & _).
  - reflexivity.
  - apply (bool_decide_unpack _). vm_compute. exact I.
  - reflexivity.
  - split; [exact Hset | exact Hline].
Defined.
